(** * CareSens (i-SENS) meter driver: protocol engine and record mapping

    A shallow embedding of [lib/drivers/i-sens/careSens.js]: the packet
    codec, the report reassembly loop of [commandResponse], the [ping]
    handshake, the paginated record fetch and the mapping of raw records
    to upload records, with the properties the driver is expected to
    satisfy. *)

From stdpp Require Import gmap strings list fin_maps sorting.
From Stdlib Require Import ZArith Lia.
From Stdlib Require QArith.
From Equations Require Import Equations.

Local Open Scope Z_scope.

(** ** Protocol constants *)

Module COMMAND.
Definition HEADER : string := "iSPc".
Definition GLUCOSE_RESULT : string := "GLUE".
Definition CURRENT_INDEX : string := "NCOT".
Definition READ_SERIAL : string := "RSNB".
Definition READ_TIME : string := "RTIM".
Definition WRITE_TIME : string := "WTIM".
End COMMAND.

Module ASCII_CONTROL.
Definition STX : Z := 0x02.
Definition ETX : Z := 0x03.
End ASCII_CONTROL.

Module FLAGS.
Definition CONTROL_SOLUTION : Z := 0x01.
Definition POST_MEAL : Z := 0x02.
Definition LO : Z := 0x04.
Definition HI : Z := 0x08.
Definition FASTING : Z := 0x10.
Definition NORMAL : Z := 0x20.
Definition KETONE : Z := 0x40.
Definition LOW_HIGH : Z := 0x80.
End FLAGS.

(** The [ERROR] table: protocol error tokens and their names. *)
Definition ERROR : list (string * string) :=
  [ ("TOUT", "Communication timeout");
    ("HEAD", "Could not verify header packet");
    ("SIZE", "Could not verify size of packet");
    ("ECRC", "Could not verify CRC of packet");
    ("CMND", "Could not verify packet command") ].

Definition HEADER_SIZE : nat := 6.
Definition KETONE_VALUE_FACTOR : Z := 10.

(** ** Results of fallible operations

    A JavaScript [throw new Error(msg)] is a [Throw msg]. *)

Inductive result (A : Type) : Type :=
| Ok (a : A)
| Throw (msg : string).
Arguments Ok {A} a.
Arguments Throw {A} msg.

(** ** Bytes, character codes and the [struct] helpers *)

(** Character codes of a string, and [String.fromCharCode.apply] on a
    list of byte values. *)
Definition codes (s : string) : list Z :=
  (λ a, Z.of_N (Ascii.N_of_ascii a)) <$> String.list_ascii_of_string s.

Definition fromCharCodes (l : list Z) : string :=
  String.string_of_list_ascii ((λ z, Ascii.ascii_of_N (Z.to_N z)) <$> l).

(** A store into a [Uint8Array]: the value is reduced modulo 256 and a
    store outside the buffer is ignored. *)
Definition storeByte (v : Z) (buf : list Z) (pos : nat) : list Z :=
  <[pos := v mod 256]> buf.

(** Modelled from the spec: [struct.copyBytes] of lib/struct.js, which is
    not part of the sources at hand; it copies the payload bytes into the
    buffer from [pos] on. *)
Fixpoint copyBytes (buf : list Z) (pos : nat) (src : list Z) : list Z :=
  match src with
  | [] => buf
  | b :: rest => copyBytes (storeByte b buf pos) (S pos) rest
  end.

(** Modelled from the spec: the arguments of [struct.pack] of
    lib/struct.js for the format letters the driver uses, laid out as the
    wire format of the protocol has them: [b] one byte, [nz] a field of
    [n] characters, [S] a 16-bit value, high byte first. *)
Inductive packArg : Type :=
| Pb (v : Z)
| Pz (n : nat) (s : string)
| PS (v : Z).

Definition packOne (buf : list Z) (pos : nat) (a : packArg) : list Z * nat :=
  match a with
  | Pb v => (storeByte v buf pos, 1%nat)
  | Pz n s => (copyBytes buf pos (take n (codes s)), n)
  | PS v =>
      (storeByte (Z.land v 255)
         (storeByte (Z.land (Z.shiftr v 8) 255) buf pos) (S pos), 2%nat)
  end.

(** [pack buf pos args] returns the buffer and the number of bytes
    written, as [struct.pack] does. *)
Fixpoint pack (buf : list Z) (pos : nat) (args : list packArg) : list Z * nat :=
  match args with
  | [] => (buf, 0%nat)
  | a :: rest =>
      let '(buf1, n) := packOne buf pos a in
      let '(buf2, m) := pack buf1 (pos + n) rest in
      (buf2, (n + m)%nat)
  end.

(** Modelled from the spec: the readers of lib/struct.js behind
    [struct.unpack]. A position past the end of the buffer reads as
    [undefined] in JavaScript; every statement below that depends on a
    read keeps it inside the buffer, and the default [0] is never relied
    on. *)
Definition extractByte (bytes : list Z) (pos : nat) : Z :=
  default 0 (bytes !! pos).

Definition extractBytes (bytes : list Z) (pos n : nat) : list Z :=
  take n (drop pos bytes).

Definition extractString (bytes : list Z) (pos n : nat) : string :=
  fromCharCodes (extractBytes bytes pos n).

Definition extractBEShort (bytes : list Z) (pos : nat) : Z :=
  Z.land (Z.shiftl (extractByte bytes pos) 8 + extractByte bytes (S pos)) 0xFFFF.

(** [Array.prototype.splice(start, deleteCount)] without inserted items:
    a negative [start] counts from the end. *)
Definition splice (l : list Z) (start : Z) (deleteCount : nat) : list Z :=
  let len := Z.of_nat (length l) in
  let s := Z.to_nat (if start <? 0 then Z.max (len + start) 0 else Z.min start len) in
  take s l ++ drop (s + deleteCount) l.

(** [Array.prototype.slice(start, end)] for a non-negative [start]: a
    negative [end] counts from the end, and both are clamped to the
    length. *)
Definition slice (l : list Z) (start : nat) (stop : Z) : list Z :=
  let len := Z.of_nat (length l) in
  let e := Z.to_nat (if stop <? 0 then Z.max (len + stop) 0 else Z.min stop len) in
  drop start (take e l).

(** Modelled from the spec: [common.getName] of lib/commonFunctions.js
    looks a token up in a table and answers ["unknown"] when it is
    absent. *)
Fixpoint getName (table : list (string * string)) (value : string) : string :=
  match table with
  | [] => "unknown"
  | (v, name) :: rest => if decide (v = value) then name else getName rest value
  end.

(** ** The packet codec *)

Record headerFields : Type := { hdr_header : string; hdr_size : Z }.

Record response : Type := { rsp_command : string; rsp_data : list Z; rsp_crc : Z }.

Section Codec.

(** [crcCalculator.calcCRC_A bytes size] of lib/crc.js: the 16-bit
    checksum of the first [size] bytes. *)
Variable calcCRC_A : list Z → nat → Z.

Definition buildPacket (command : string) (payload : list Z) : list Z :=
  let datalen := (7 + length payload)%nat in
  let packetlen := (datalen + 7)%nat in
  let bytes := replicate packetlen 0 in
  let '(bytes, ctr) :=
    pack bytes 0 [ Pb (Z.of_nat packetlen); Pb ASCII_CONTROL.STX;
                   Pz 4 COMMAND.HEADER; Pb (Z.of_nat datalen);
                   Pz 4 command ] in
  let bytes := copyBytes bytes ctr payload in
  let ctr := (ctr + length payload)%nat in
  let bytes := storeByte ASCII_CONTROL.ETX bytes ctr in
  let crc := calcCRC_A (drop 1 bytes) (packetlen - 3) in
  let '(bytes, _) := pack bytes ctr [ PS crc; Pb ASCII_CONTROL.ETX ] in
  bytes.

Definition verifyChecksum (bytes : list Z) (expected : Z) : result unit :=
  let bytes := splice bytes (Z.of_nat (length bytes) - 3) 2 in
  let calculated := calcCRC_A bytes (length bytes) in
  if decide (calculated ≠ expected) then Throw "Checksum mismatch" else Ok tt.

Definition extractHeader (bytes : list Z) : result headerFields :=
  let fields := {| hdr_header := extractString bytes 1 4;
                   hdr_size := extractByte bytes 5 |} in
  if decide (hdr_header fields ≠ COMMAND.HEADER)
  then Throw "Header not found"
  else Ok fields.

Definition unpackResponse (bytes : list Z) (size : Z) : response :=
  let n := Z.to_nat (size - 7) in
  {| rsp_command := extractString bytes 6 4;
     rsp_data := extractBytes bytes 10 n;
     rsp_crc := extractBEShort bytes (10 + n) |}.

Definition extractPacketIntoMessages (bytes : list Z) : result response :=
  match extractHeader bytes with
  | Throw msg => Throw msg
  | Ok fields =>
      let response := unpackResponse bytes (hdr_size fields) in
      if decide (rsp_command response ≠ COMMAND.GLUCOSE_RESULT)
      then match verifyChecksum bytes (rsp_crc response) with
           | Throw msg => Throw msg
           | Ok _ => Ok response
           end
      else Ok response
  end.

End Codec.

(** ** The reassembly loop of [commandResponse] *)

(** The variables the [do ... while (!foundETX)] loop carries from one
    report to the next. *)
Record readState : Type :=
  { raw : list Z; foundSTX : bool; packetSize : Z }.

Definition initialRead : readState :=
  {| raw := []; foundSTX := false; packetSize := 64 |}.

(** What one iteration leaves behind: [Reading] when [foundETX] is still
    false and the loop calls [receiveTimeout] again, [Complete] when
    [foundETX] has been set, [Failed] when [extractHeader] has thrown. *)
Inductive readOutcome : Type :=
| Reading (st : readState)
| Complete (st : readState)
| Failed (msg : string).

(** One iteration, on the result of [receiveTimeout]; an empty result is
    what the transport returns when the read timeout elapses. *)
Definition readReport (st : readState) (result : list Z) : readOutcome :=
  if decide (0 < length result)%nat then
    let len := extractByte result 0 in
    let bytes := slice result 1 (len + 1) in
    let found :=
      if foundSTX st then true else bool_decide (ASCII_CONTROL.STX ∈ bytes) in
    if found then
      let raw1 := raw st ++ bytes in
      let size :=
        if decide (length raw1 = HEADER_SIZE)
        then match extractHeader raw1 with
             | Ok fields => Ok (hdr_size fields)
             | Throw msg => Throw msg
             end
        else Ok (packetSize st) in
      match size with
      | Throw msg => Failed msg
      | Ok ps =>
          let st1 := {| raw := raw1; foundSTX := true; packetSize := ps |} in
          if bool_decide (ASCII_CONTROL.ETX ∈ bytes)
             && bool_decide (ps + Z.of_nat HEADER_SIZE ≤ Z.of_nat (length raw1))
          then Complete st1
          else Reading st1
      end
    else Reading st
  else Reading st.

(** The loop over the successive results of [receiveTimeout]. When the
    list is used up the outcome is [Reading]: the loop is about to read
    again. *)
Fixpoint readReports (reports : list (list Z)) (st : readState) : readOutcome :=
  match reports with
  | [] => Reading st
  | result :: rest =>
      match readReport st result with
      | Reading st1 => readReports rest st1
      | out => out
      end
  end.

(** The first [n] results of a transport given as an unbounded sequence. *)
Definition firstReports (recv : nat → list Z) (n : nat) : list (list Z) :=
  recv <$> seq 0 n.

(** What [commandResponse] does with the buffer once the loop is left:
    decode the packet when there is data, then look the command up in the
    [ERROR] table. The message stays [''] ([None]) without data. *)
Definition checkMessage (calcCRC_A : list Z → nat → Z) (raw : list Z)
  : result (option response) :=
  let message :=
    if decide (0 < length raw)%nat
    then match extractPacketIntoMessages calcCRC_A raw with
         | Ok m => Ok (Some m)
         | Throw msg => Throw msg
         end
    else Ok None in
  match message with
  | Throw msg => Throw msg
  | Ok m =>
      let err := match m with
                 | Some r => getName ERROR (rsp_command r)
                 | None => "unknown"
                 end in
      if decide (err ≠ "unknown") then Throw err else Ok m
  end.

(** The answer of [commandResponse] to a given sequence of reports. *)
Inductive exchange : Type :=
| Returned (message : option response)
| Raised (msg : string)
| AwaitingReport (st : readState).

Definition commandResponseOn (calcCRC_A : list Z → nat → Z)
    (reports : list (list Z)) : exchange :=
  match readReports reports initialRead with
  | Reading st => AwaitingReport st
  | Failed msg => Raised msg
  | Complete st =>
      match checkMessage calcCRC_A (raw st) with
      | Ok m => Returned m
      | Throw msg => Raised msg
      end
  end.

(** ** The transport and the [ping] handshake *)

(** What the driver does on the HID transport, in order. *)
Inductive hidEvent : Type :=
| Sent (bytes : list Z)
| Received (bytes : list Z).

(** The transport as the driver sees it: the results that the coming
    calls of [receiveTimeout] return (an exhausted list means that every
    further read times out with an empty result) and the trace of what
    has been done on it. *)
Record hid : Type := { incoming : list (list Z); trace : list hidEvent }.

Definition sendPromisified (h : hid) (bytes : list Z) : nat * hid :=
  (length bytes, {| incoming := incoming h; trace := trace h ++ [Sent bytes] |}).

Definition receiveTimeout (h : hid) : list Z * hid :=
  match incoming h with
  | [] => ([], {| incoming := []; trace := trace h ++ [Received []] |})
  | r :: rest => (r, {| incoming := rest; trace := trace h ++ [Received r] |})
  end.

(** The [CareSens] instance: its transport and its retry counter, which
    the constructor sets to zero. *)
Record CareSens : Type := { hidDevice : hid; retries : nat }.

Definition newCareSens (deviceComms : hid) : CareSens :=
  {| hidDevice := deviceComms; retries := 0 |}.

Definition pingProbe : list Z := [0x01; 0x80].

Equations? ping (this : CareSens) : result unit * CareSens
  by wf (4 - retries this)%nat lt :=
  ping this with receiveTimeout (sendPromisified (hidDevice this) pingProbe).2 => {
    | (result, h) with decide (length result = 0%nat) => {
      | left _ with decide (retries this ≤ 3)%nat => {
        | left _ := ping {| hidDevice := h; retries := retries this + 1 |};
        | right _ := (Throw "Device not responding.",
                      {| hidDevice := h; retries := retries this |}) };
      | right _ := (Ok tt, {| hidDevice := h; retries := 0 |}) } }.
Proof. simpl. lia. Qed.

(** ** Fetching the records *)

(** Modelled from the spec: [sundial.buildTimestamp] turns the date and
    time fields of a record into a timestamp; the library is not part of
    the sources at hand, and the timestamp is kept as its fields. *)
Record timestamp : Type :=
  { ts_year : Z; ts_month : Z; ts_day : Z;
    ts_hours : Z; ts_minutes : Z; ts_seconds : Z }.

(** A raw record as [getRecords] leaves it. *)
Record rawRecord : Type :=
  { year : Z; month : Z; day : Z; hours : Z; minutes : Z; seconds : Z;
    flags : Z; value : Z; jsDate : timestamp }.

(** [struct.unpack(data, ctr, 'bbbbbbbS', ...)], [record.year += 2000]
    and [record.jsDate = sundial.buildTimestamp(record)]. *)
Definition unpackRecord (data : list Z) (ctr : nat) : rawRecord :=
  let y := extractByte data ctr + 2000 in
  let mo := extractByte data (ctr + 1) in
  let d := extractByte data (ctr + 2) in
  let h := extractByte data (ctr + 3) in
  let mi := extractByte data (ctr + 4) in
  let s := extractByte data (ctr + 5) in
  {| year := y; month := mo; day := d; hours := h; minutes := mi; seconds := s;
     flags := extractByte data (ctr + 6);
     value := extractBEShort data (ctr + 7);
     jsDate := {| ts_year := y; ts_month := mo; ts_day := d;
                  ts_hours := h; ts_minutes := mi; ts_seconds := s |} |}.

(** The inner loop of [getRecords]: [count] records of 9 bytes each are
    read from [ctr] on and pushed onto [records]. *)
Fixpoint unpackRecords (data : list Z) (ctr : nat) (count : nat)
    (records : list rawRecord) : list rawRecord :=
  match count with
  | O => records
  | S c => unpackRecords data (ctr + 9) c (records ++ [unpackRecord data ctr])
  end.

(** The 3-byte payload of a glucose-result request:
    [struct.pack(bytes, 0, 'Sb', startIndex, count)]. *)
Definition pageRequest (startIndex count : Z) : list Z :=
  (pack (replicate 3 0) 0 [PS startIndex; Pb count]).1.

Section Fetch.

(** The meter behind the transport, and [this.commandResponse] as an
    exchange with it: a command and a payload go out, a validated
    response or an error comes back. *)
Variable Meter : Type.
Variable commandResponse : string → list Z → Meter → result response * Meter.

Definition getNumberOfRecords (m : Meter) : result Z * Meter :=
  match commandResponse COMMAND.CURRENT_INDEX [] m with
  | (Ok result, m1) => (Ok (extractBEShort (rsp_data result) 0), m1)
  | (Throw msg, m1) => (Throw msg, m1)
  end.

(** The number of records asked for on the page that starts at
    [startIndex]. *)
Definition pageCount (nrOfRecords startIndex : Z) : Z :=
  if nrOfRecords - startIndex >=? 27 then 27
  else nrOfRecords - startIndex + 1.

(** The [for (startIndex = ...; startIndex <= nrOfRecords; startIndex += 27)]
    loop of [getRecords], from a given [startIndex] on. *)
Equations? getRecordsFrom (nrOfRecords startIndex : Z) (m : Meter)
    (records : list rawRecord) : result (list rawRecord) * Meter
  by wf (Z.to_nat (nrOfRecords + 1 - startIndex)) lt :=
  getRecordsFrom nrOfRecords startIndex m records
    with decide (startIndex ≤ nrOfRecords) => {
    | right _ := (Ok records, m);
    | left _
        with commandResponse COMMAND.GLUCOSE_RESULT
               (pageRequest startIndex (pageCount nrOfRecords startIndex)) m => {
      | (Throw msg, m1) := (Throw msg, m1);
      | (Ok result, m1) :=
          getRecordsFrom nrOfRecords (startIndex + 27) m1
            (unpackRecords (rsp_data result) 0
               (Z.to_nat (pageCount nrOfRecords startIndex)) records) } }.
Proof. lia. Qed.

Definition getRecords (nrOfRecords : Z) (m : Meter)
  : result (list rawRecord) * Meter :=
  getRecordsFrom nrOfRecords 1 m [].

(** The fetch stage: the index query, then the pages. *)
Definition fetchData (m : Meter) : result (Z * list rawRecord) * Meter :=
  match getNumberOfRecords m with
  | (Throw msg, m1) => (Throw msg, m1)
  | (Ok nrOfRecords, m1) =>
      match getRecords nrOfRecords m1 with
      | (Throw msg, m2) => (Throw msg, m2)
      | (Ok records, m2) => (Ok (nrOfRecords, records), m2)
      end
  end.

End Fetch.

(** ** Mapping raw records to upload records *)

(** JavaScript numbers that are not integers (the ketone values, in
    tenths) are kept as exact fractions. *)
Abbreviation Q := QArith_base.Q.

Definition KETONE_HI : Q := QArith_base.Qmake 8 1.

Record annotation : Type :=
  { ann_code : string; ann_value : string; ann_threshold : Q }.

(** The values the fields of an upload record hold. *)
Inductive jsval : Type :=
| VNum (q : Q)
| VStr (s : string)
| VAnnotations (l : list annotation).

Definition number (z : Z) : jsval := VNum (QArith_base.Qmake z 1).

Definition hasFlag (flag v : Z) : bool :=
  if decide (Z.land flag v ≠ 0) then true else false.

(** [_.forEach(collection, (item, index) => ...)] with the state the
    callback updates passed along. *)
Fixpoint forEachFrom {A St : Type} (body : A → nat → St → St)
    (l : list A) (index : nat) (s : St) : St :=
  match l with
  | [] => s
  | x :: rest => forEachFrom body rest (S index) (body x index s)
  end.

Definition forEach {A St : Type} (body : A → nat → St → St) (l : list A) (s : St) : St :=
  forEachFrom body l 0 s.

(** Modelled from the spec: the record builder of lib/objectBuilder.js
    ([makeSMBG], [makeBloodKetone], [with_*], [set], [done]) is not part
    of the sources at hand. A record under construction is an object
    with named fields; every setter stores its field, and [done] hands
    the object over. *)
Definition makeSMBG : gmap string jsval := {[ "type" := VStr "smbg" ]}.
Definition makeBloodKetone : gmap string jsval := {[ "type" := VStr "bloodKetone" ]}.

Definition with_value (v : Q) (rb : gmap string jsval) : gmap string jsval :=
  <["value" := VNum v]> rb.
Definition with_units (u : string) (rb : gmap string jsval) : gmap string jsval :=
  <["units" := VStr u]> rb.
Definition with_deviceTime (t : string) (rb : gmap string jsval) : gmap string jsval :=
  <["deviceTime" := VStr t]> rb.
Definition set (field : string) (v : jsval) (rb : gmap string jsval) : gmap string jsval :=
  <[field := v]> rb.
Definition done (rb : gmap string jsval) : gmap string jsval := rb.

(** Modelled from the spec: [annotate.annotateEvent] of
    lib/eventAnnotations.js attaches an annotation to a record. *)
Definition annotateEvent (rb : gmap string jsval) (a : annotation) : gmap string jsval :=
  let present := match rb !! "annotations" with
                 | Some (VAnnotations l) => l
                 | _ => []
                 end in
  <["annotations" := VAnnotations (present ++ [a])]> rb.

(** The UTC metadata that timezone reconciliation adds to a record. *)
Record utcInfo : Type :=
  { utc_time : string; utc_timezoneOffset : Z;
    utc_clockDriftOffset : Z; utc_conversionOffset : Z }.

Definition out_of_range_high : annotation :=
  {| ann_code := "bg/out-of-range"; ann_value := "high";
     ann_threshold := QArith_base.Qmake 600 1 |}.

Definition out_of_range_low : annotation :=
  {| ann_code := "bg/out-of-range"; ann_value := "low";
     ann_threshold := QArith_base.Qmake 20 1 |}.

Definition ketone_out_of_range_high : annotation :=
  {| ann_code := "ketone/out-of-range"; ann_value := "high";
     ann_threshold := KETONE_HI |}.

(** The working record the pipeline stages share. *)
Record sessionData : Type :=
  { records : list rawRecord; post_records : list (gmap string jsval) }.

Section Process.

(** [sundial.formatDeviceTime], and the lookup behind
    [cfg.tzoUtil.fillInUTCInfo], which reads the timestamp and the index
    the record under construction carries. *)
Variable formatDeviceTime : timestamp → string.
Variable lookupUTC : timestamp → option jsval → utcInfo.

(** Modelled from the spec: [fillInUTCInfo] of lib/TimezoneOffsetUtil.js
    annotates the record with UTC metadata. *)
Definition fillInUTCInfo (rb : gmap string jsval) (jsDate : timestamp)
  : gmap string jsval :=
  let u := lookupUTC jsDate (rb !! "index") in
  <["conversionOffset" := number (utc_conversionOffset u)]>
    (<["clockDriftOffset" := number (utc_clockDriftOffset u)]>
       (<["timezoneOffset" := number (utc_timezoneOffset u)]>
          (<["time" := VStr (utc_time u)]> rb))).

(** The value and the annotation that [buildBGRecords] settles on for a
    record, before it decides whether to emit it. *)
Definition bgValue (record : rawRecord) : Z * option annotation :=
  if hasFlag FLAGS.HI (flags record) then (601, Some out_of_range_high)
  else if hasFlag FLAGS.LO (flags record) then (19, Some out_of_range_low)
  else (value record, None).

(** The record the builder returns from [done()], still with its index. *)
Definition buildSMBG (record : rawRecord) (index : nat) : gmap string jsval :=
  let '(value, annotation) := bgValue record in
  let recordBuilder :=
    set "index" (number (Z.of_nat index))
      (with_deviceTime (formatDeviceTime (jsDate record))
         (with_units "mg/dL"
            (with_value (QArith_base.Qmake value 1) makeSMBG))) in
  let recordBuilder := fillInUTCInfo recordBuilder (jsDate record) in
  let recordBuilder :=
    match annotation with
    | Some a => annotateEvent recordBuilder a
    | None => recordBuilder
    end in
  done recordBuilder.

(** The callback of [buildBGRecords]. *)
Definition bgBody (record : rawRecord) (index : nat)
    (post : list (gmap string jsval)) : list (gmap string jsval) :=
  if negb (hasFlag FLAGS.CONTROL_SOLUTION (flags record))
     && negb (hasFlag FLAGS.KETONE (flags record))
  then
    let postRecord := buildSMBG record index in
    let postRecord := delete "index" postRecord in
    post ++ [postRecord]
  else post.

Definition buildBGRecords (data : sessionData) : sessionData :=
  {| records := records data;
     post_records := forEach bgBody (records data) (post_records data) |}.

Definition ketoneValue (record : rawRecord) : Q * option annotation :=
  if hasFlag FLAGS.HI (flags record)
  then (QArith_base.Qplus KETONE_HI
          (QArith_base.Qdiv (QArith_base.Qmake 1 1)
             (QArith_base.Qmake KETONE_VALUE_FACTOR 1)),
        Some ketone_out_of_range_high)
  else (QArith_base.Qdiv (QArith_base.Qmake (value record) 1)
          (QArith_base.Qmake KETONE_VALUE_FACTOR 1), None).

Definition buildBloodKetone (record : rawRecord) (index : nat) : gmap string jsval :=
  let '(value, annotation) := ketoneValue record in
  let recordBuilder :=
    set "index" (number (Z.of_nat index))
      (with_deviceTime (formatDeviceTime (jsDate record))
         (with_units "mmol/L"
            (with_value value makeBloodKetone))) in
  let recordBuilder := fillInUTCInfo recordBuilder (jsDate record) in
  let recordBuilder :=
    match annotation with
    | Some a => annotateEvent recordBuilder a
    | None => recordBuilder
    end in
  done recordBuilder.

(** The callback of [buildKetoneRecords]. *)
Definition ketoneBody (record : rawRecord) (index : nat)
    (post : list (gmap string jsval)) : list (gmap string jsval) :=
  if hasFlag FLAGS.KETONE (flags record) then
    if negb (hasFlag FLAGS.CONTROL_SOLUTION (flags record)) then
      let postRecord := buildBloodKetone record index in
      let postRecord := delete "index" postRecord in
      post ++ [postRecord]
    else post
  else post.

Definition buildKetoneRecords (data : sessionData) : sessionData :=
  {| records := records data;
     post_records := forEach ketoneBody (records data) (post_records data) |}.

(** The process stage: both passes over the raw records, and the failure
    when nothing is left to upload. *)
Definition processData (data : sessionData) : result sessionData :=
  let data := {| records := records data; post_records := [] |} in
  let data := buildBGRecords data in
  let data := buildKetoneRecords data in
  if decide (length (post_records data) = 0%nat)
  then Throw "Device has no records to upload"
  else Ok data.

(** The upload set after both passes, whether or not the stage then
    fails on an empty set. *)
Definition processed (raws : list rawRecord) : list (gmap string jsval) :=
  post_records
    (buildKetoneRecords (buildBGRecords {| records := raws; post_records := [] |})).

End Process.

(** ** Serial number and device clock *)

(** The characters [String.prototype.trim] removes, among the character
    codes a byte can hold: tab, line feed, vertical tab, form feed,
    carriage return, space and no-break space. *)
Definition isWhiteSpace (a : Ascii.ascii) : bool :=
  let c := Z.of_N (Ascii.N_of_ascii a) in
  ((9 <=? c) && (c <=? 13)) || (c =? 32) || (c =? 160).

Fixpoint trimStart (l : list Ascii.ascii) : list Ascii.ascii :=
  match l with
  | [] => []
  | a :: rest => if isWhiteSpace a then trimStart rest else l
  end.

Definition trim (s : string) : string :=
  String.string_of_list_ascii
    (reverse (trimStart (reverse (trimStart (String.list_ascii_of_string s))))).

(** [_.dropRight(array)]: the array without its last element. *)
Definition dropRight {A : Type} (l : list A) : list A := take (length l - 1) l.

(** The six values [setDateTime] is called with: two-digit year, month,
    day, hours, minutes, seconds. *)
Record dateTime : Type :=
  { dt_year : Z; dt_month : Z; dt_day : Z;
    dt_hours : Z; dt_minutes : Z; dt_seconds : Z }.

Definition dateTimeValues (t : dateTime) : list Z :=
  [dt_year t; dt_month t; dt_day t; dt_hours t; dt_minutes t; dt_seconds t].

Section Clock.

Variable Meter : Type.
Variable commandResponse : string → list Z → Meter → result response * Meter.

Definition getSerialNumber (m : Meter) : result string * Meter :=
  match commandResponse COMMAND.READ_SERIAL [] m with
  | (Ok result, m1) => (Ok (trim (fromCharCodes (dropRight (rsp_data result)))), m1)
  | (Throw msg, m1) => (Throw msg, m1)
  end.

Definition getDateTime (m : Meter) : result timestamp * Meter :=
  match commandResponse COMMAND.READ_TIME [] m with
  | (Ok result, m1) =>
      let data := rsp_data result in
      (Ok {| ts_year := extractByte data 0 + 2000;
             ts_month := extractByte data 1;
             ts_day := extractByte data 2;
             ts_hours := extractByte data 3;
             ts_minutes := extractByte data 4;
             ts_seconds := extractByte data 5 |}, m1)
  | (Throw msg, m1) => (Throw msg, m1)
  end.

Definition setDateTime (t : dateTime) (m : Meter) : result unit * Meter :=
  let bytes := (pack (replicate 6 0) 0 (Pb <$> dateTimeValues t)).1 in
  match commandResponse COMMAND.WRITE_TIME bytes m with
  | (Ok result, m1) =>
      let newDateTime := rsp_data result in
      if decide (dateTimeValues t ≠ newDateTime)
      then (Throw "Error setting date/time.", m1)
      else (Ok tt, m1)
  | (Throw msg, m1) => (Throw msg, m1)
  end.

End Clock.

(** ** The cleanup stage *)

(** The flags of the working record that the stages set; a flag that no
    stage has set yet is [undefined] ([None]). *)
Record stageFlags : Type :=
  { flag_disconnect : option bool; flag_cleanup : option bool }.

(** [!flag] for a flag that is [undefined], [false] or [true]. *)
Definition isFalsy (flag : option bool) : bool :=
  match flag with
  | Some true => false
  | _ => true
  end.

(** [cleanup(progress, data, cb)], with the number of times
    [cfg.deviceComms.disconnect] has been called passed along; the
    answer is what the callback receives: the record, or nothing when
    the transport had been released before. *)
Definition cleanup (data : stageFlags) (disconnects : nat)
  : option stageFlags * nat :=
  if isFalsy (flag_disconnect data)
  then (Some {| flag_disconnect := Some true; flag_cleanup := Some true |},
        S disconnects)
  else (None, disconnects).

(** * Properties *)

(** ** Bytes and the [struct] helpers *)

Definition is_byte (b : Z) : Prop := 0 ≤ b < 256.

(** The character code of one character. *)
Definition code (a : Ascii.ascii) : Z := Z.of_N (Ascii.N_of_ascii a).

Lemma code_is_byte a : is_byte (code a).
Proof.
  unfold is_byte, code. pose proof (Ascii.N_ascii_bounded a). lia.
Qed.

Lemma fromCharCodes_codes s : fromCharCodes (codes s) = s.
Proof.
  unfold fromCharCodes, codes.
  rewrite <- list_fmap_compose.
  rewrite <- (String.string_of_list_ascii_of_string s) at 2.
  f_equal. rewrite <- (list_fmap_id (String.list_ascii_of_string s)) at 2.
  apply list_fmap_ext. intros _ a _. simpl.
  rewrite N2Z.id. apply Ascii.ascii_N_embedding.
Qed.

Lemma codes_length s : length (codes s) = String.length s.
Proof.
  unfold codes. rewrite length_fmap.
  induction s as [|a s IH]; simpl; [reflexivity | by rewrite IH].
Qed.

Lemma codes_are_bytes s : Forall is_byte (codes s).
Proof.
  unfold codes. apply Forall_fmap, Forall_forall. intros a _. apply code_is_byte.
Qed.

Lemma storeByte_middle v pre x post :
  storeByte v (pre ++ x :: post) (length pre) = pre ++ (v mod 256) :: post.
Proof.
  unfold storeByte.
  rewrite <- (Nat.add_0_r (length pre)) at 1.
  by rewrite insert_app_r.
Qed.

Lemma copyBytes_middle src : ∀ pre mid post,
  length mid = length src →
  copyBytes (pre ++ mid ++ post) (length pre) src
  = pre ++ ((λ b, b mod 256) <$> src) ++ post.
Proof.
  induction src as [|b src IH]; intros pre mid post Hlen.
  - destruct mid; [reflexivity | discriminate].
  - destruct mid as [|x mid]; [discriminate|]. simpl in Hlen.
    cbn [copyBytes]. rewrite <- app_comm_cons, storeByte_middle.
    replace (pre ++ b mod 256 :: mid ++ post)
      with ((pre ++ [b mod 256]) ++ mid ++ post) by (by rewrite <- app_assoc).
    replace (S (length pre)) with (length (pre ++ [b mod 256]))
      by (rewrite length_app; simpl; lia).
    rewrite IH by lia. rewrite <- app_assoc. reflexivity.
Qed.

Lemma bytes_mod_id l : Forall is_byte l → (λ b, b mod 256) <$> l = l.
Proof.
  induction 1 as [|b l Hb _ IH]; [reflexivity|].
  rewrite fmap_cons, IH. f_equal. unfold is_byte in Hb. apply Z.mod_small. lia.
Qed.

(** A 16-bit value survives being written high byte first and read back. *)
Lemma short_bytes crc :
  0 ≤ crc < 65536 →
  Z.land (Z.shiftl (Z.land (Z.shiftr crc 8) 255 mod 256) 8
          + Z.land crc 255 mod 256) 0xFFFF = crc.
Proof.
  intros H.
  change 255 with (Z.ones 8). change 0xFFFF with (Z.ones 16).
  rewrite !Z.land_ones by lia.
  rewrite Z.shiftl_mul_pow2, Z.shiftr_div_pow2 by lia.
  change (2 ^ 8) with 256. change (2 ^ 16) with 65536.
  rewrite !Z.mod_mod by lia.
  rewrite (Z.mod_small (crc / 256)) by (split; [apply Z.div_pos; lia | apply Z.div_lt_upper_bound; lia]).
  pose proof (Z.div_mod crc 256 ltac:(lia)) as E.
  rewrite Z.mod_small; lia.
Qed.

(** The bytes one [pack] argument writes, and how far it advances. *)
Definition packed (a : packArg) : list Z :=
  match a with
  | Pb v => [v mod 256]
  | Pz n s => (λ b, b mod 256) <$> take n (codes s)
  | PS v => [Z.land (Z.shiftr v 8) 255 mod 256; Z.land v 255 mod 256]
  end.

Definition packWidth (a : packArg) : nat :=
  match a with
  | Pb _ => 1
  | Pz n _ => n
  | PS _ => 2
  end.

Definition fills (a : packArg) : Prop := length (packed a) = packWidth a.

Lemma packOne_middle a pre mid post :
  fills a → length mid = packWidth a →
  packOne (pre ++ mid ++ post) (length pre) a = (pre ++ packed a ++ post, packWidth a).
Proof.
  unfold fills. intros Hfill Hmid. destruct a as [v|n s|v]; simpl in *.
  - destruct mid as [|x [|? ?]]; try discriminate. simpl.
    by rewrite storeByte_middle.
  - rewrite length_fmap in Hfill.
    rewrite copyBytes_middle by congruence. reflexivity.
  - destruct mid as [|x [|y [|? ?]]]; try discriminate. simpl.
    rewrite storeByte_middle.
    replace (pre ++ Z.land (Z.shiftr v 8) 255 mod 256 :: y :: post)
      with ((pre ++ [Z.land (Z.shiftr v 8) 255 mod 256]) ++ y :: post)
      by (by rewrite <- app_assoc).
    replace (S (length pre)) with (length (pre ++ [Z.land (Z.shiftr v 8) 255 mod 256]))
      by (rewrite length_app; simpl; lia).
    rewrite storeByte_middle, <- app_assoc. reflexivity.
Qed.

Lemma pack_middle args : ∀ pre mid post,
  Forall fills args →
  length mid = sum_list (packWidth <$> args) →
  pack (pre ++ mid ++ post) (length pre) args
  = (pre ++ concat (packed <$> args) ++ post, sum_list (packWidth <$> args)).
Proof.
  induction args as [|a args IH]; intros pre mid post Hfill Hmid.
  - destruct mid; [reflexivity | discriminate].
  - inversion Hfill as [|? ? Ha Hargs]; subst.
    rewrite fmap_cons in Hmid. simpl in Hmid.
    rewrite <- (take_drop (packWidth a) mid).
    assert (length (take (packWidth a) mid) = packWidth a) as Ht
      by (rewrite length_take; lia).
    assert (length (drop (packWidth a) mid) = sum_list (packWidth <$> args)) as Hd
      by (rewrite length_drop; lia).
    cbn [pack]. rewrite <- (app_assoc (take _ _)).
    rewrite packOne_middle by done.
    replace (pre ++ packed a ++ drop (packWidth a) mid ++ post)
      with ((pre ++ packed a) ++ drop (packWidth a) mid ++ post)
      by (by rewrite <- app_assoc).
    replace (length pre + packWidth a)%nat with (length (pre ++ packed a))
      by (rewrite length_app; unfold fills in Ha; lia).
    rewrite IH by done.
    rewrite !fmap_cons. simpl. rewrite <- !app_assoc. reflexivity.
Qed.

(** Reading back what lies at a known place of a buffer. *)
Lemma extractByte_at pre x post pos :
  pos = length pre → extractByte (pre ++ x :: post) pos = x.
Proof.
  intros ->. unfold extractByte. by rewrite list_lookup_middle.
Qed.

Lemma extractBytes_at pre mid post pos n :
  pos = length pre → n = length mid →
  extractBytes (pre ++ mid ++ post) pos n = mid.
Proof.
  intros -> ->. unfold extractBytes.
  by rewrite drop_app_length, take_app_length.
Qed.

Lemma extractString_at pre s post pos n :
  pos = length pre → n = String.length s →
  extractString (pre ++ codes s ++ post) pos n = s.
Proof.
  intros Hpos Hn. unfold extractString.
  rewrite extractBytes_at by (done || by rewrite codes_length).
  apply fromCharCodes_codes.
Qed.

Lemma extractBEShort_at pre hi lo post pos :
  pos = length pre →
  extractBEShort (pre ++ hi :: lo :: post) pos = Z.land (Z.shiftl hi 8 + lo) 0xFFFF.
Proof.
  intros ->. unfold extractBEShort.
  rewrite extractByte_at by done.
  replace (pre ++ hi :: lo :: post) with ((pre ++ [hi]) ++ lo :: post)
    by (by rewrite <- app_assoc).
  rewrite extractByte_at by (rewrite length_app; simpl; lia).
  reflexivity.
Qed.

(** Reads that stay inside a common prefix of two buffers agree. *)
Lemma extractByte_prefix pre t pos :
  (pos < length pre)%nat → extractByte (pre ++ t) pos = extractByte pre pos.
Proof.
  intros H. unfold extractByte. by rewrite lookup_app_l.
Qed.

Lemma extractBytes_prefix pre t pos n :
  (pos + n ≤ length pre)%nat → extractBytes (pre ++ t) pos n = extractBytes pre pos n.
Proof.
  intros H. unfold extractBytes.
  rewrite drop_app_le by lia. rewrite take_app_le; [done|].
  rewrite length_drop. lia.
Qed.

(** ** The packet codec *)

(** The wire layout of a packet: length byte, STX, magic, size, command,
    payload, checksum (high byte first) and ETX. *)
Definition frame (command : string) (payload : list Z) (crc : Z) : list Z :=
  [Z.of_nat (7 + length payload + 7) mod 256; ASCII_CONTROL.STX]
  ++ codes COMMAND.HEADER
  ++ [Z.of_nat (7 + length payload) mod 256]
  ++ codes command ++ payload
  ++ [Z.land (Z.shiftr crc 8) 255 mod 256; Z.land crc 255 mod 256;
      ASCII_CONTROL.ETX].

(** The bytes the checksum of a packet covers: everything from STX to
    the payload, and the ETX stored after it. *)
Definition covered (command : string) (payload : list Z) : list Z :=
  [ASCII_CONTROL.STX] ++ codes COMMAND.HEADER
  ++ [Z.of_nat (7 + length payload) mod 256]
  ++ codes command ++ payload ++ [ASCII_CONTROL.ETX].

Lemma extractHeader_throws bytes msg :
  extractHeader bytes = Throw msg → msg = "Header not found".
Proof.
  unfold extractHeader. destruct (decide _); intros H; by inversion H.
Qed.

Section CodecFacts.

Variable calcCRC_A : list Z → nat → Z.

Lemma buildPacket_frame command payload :
  String.length command = 4%nat →
  Forall is_byte payload →
  buildPacket calcCRC_A command payload
  = frame command payload
      (calcCRC_A (covered command payload ++ [0; 0]) (7 + length payload + 7 - 3)).
Proof.
  intros Hcmd Hpay.
  unfold buildPacket.
  set (n := length payload).
  set (args := [Pb (Z.of_nat (7 + n + 7)); Pb ASCII_CONTROL.STX; Pz 4 COMMAND.HEADER;
                Pb (Z.of_nat (7 + n)); Pz 4 command]).
  assert (Forall fills args) as Hfills.
  { unfold args, fills. repeat constructor. simpl.
    rewrite length_fmap, length_take, codes_length. lia. }
  assert (sum_list (packWidth <$> args) = 11%nat) as Hsum by reflexivity.
  replace (replicate (7 + n + 7) 0)
    with ([] ++ replicate 11 0 ++ (replicate n 0 ++ replicate 3 0))
    by (rewrite app_nil_l, <- !replicate_add; f_equal; lia).
  change 0%nat with (length (@nil Z)) at 1.
  rewrite pack_middle by (done || by rewrite length_replicate).
  rewrite Hsum, app_nil_l.
  assert (concat (packed <$> args)
          = [Z.of_nat (7 + n + 7) mod 256; ASCII_CONTROL.STX] ++ codes COMMAND.HEADER
            ++ [Z.of_nat (7 + n) mod 256] ++ codes command) as ->.
  { unfold args. cbn [fmap list_fmap concat packed].
    rewrite (take_ge (codes command)) by (rewrite codes_length; lia).
    rewrite (bytes_mod_id (codes command)) by apply codes_are_bytes.
    rewrite app_nil_r. reflexivity. }
  set (P := [Z.of_nat (7 + n + 7) mod 256; ASCII_CONTROL.STX] ++ codes COMMAND.HEADER
            ++ [Z.of_nat (7 + n) mod 256] ++ codes command).
  assert (length P = 11%nat) as HP.
  { unfold P. rewrite !length_app, !codes_length, Hcmd. reflexivity. }
  rewrite <- HP.
  rewrite copyBytes_middle by (by rewrite length_replicate).
  rewrite bytes_mod_id by done.
  replace (P ++ payload ++ replicate 3 0) with ((P ++ payload) ++ 0 :: [0; 0])
    by (by rewrite <- app_assoc).
  replace (length P + n)%nat with (length (P ++ payload))
    by (rewrite length_app; reflexivity).
  rewrite storeByte_middle.
  change (ASCII_CONTROL.ETX mod 256) with ASCII_CONTROL.ETX.
  set (crc := calcCRC_A _ _).
  replace ((P ++ payload) ++ ASCII_CONTROL.ETX :: [0; 0])
    with ((P ++ payload) ++ [ASCII_CONTROL.ETX; 0; 0] ++ []) by reflexivity.
  rewrite pack_middle; [| by repeat constructor | reflexivity].
  cbn [fmap list_fmap concat packed].
  unfold frame. fold n.
  assert (crc = calcCRC_A (covered command payload ++ [0; 0]) (7 + n + 7 - 3)) as <-.
  { unfold crc, covered, P. fold n. f_equal. rewrite <- !app_assoc. reflexivity. }
  unfold P. rewrite <- !app_assoc. reflexivity.
Qed.

Lemma splice_checksum body x y z :
  splice (body ++ [x; y; z]) (Z.of_nat (length (body ++ [x; y; z])) - 3) 2
  = body ++ [z].
Proof.
  unfold splice. rewrite length_app. cbn [length].
  replace (Z.of_nat (length body + 3) - 3) with (Z.of_nat (length body)) by lia.
  destruct (Z.ltb_spec (Z.of_nat (length body)) 0) as [?|_]; [lia|].
  rewrite Z.min_l by lia. rewrite Nat2Z.id.
  rewrite take_app_length, drop_app_add. reflexivity.
Qed.

Lemma extractHeader_magic size rest :
  extractHeader ([ASCII_CONTROL.STX] ++ codes COMMAND.HEADER ++ [size] ++ rest)
  = Ok {| hdr_header := COMMAND.HEADER; hdr_size := size |}.
Proof.
  unfold extractHeader. cbn [hdr_header].
  rewrite (extractString_at [ASCII_CONTROL.STX] COMMAND.HEADER) by reflexivity.
  destruct (decide (COMMAND.HEADER ≠ COMMAND.HEADER)) as [Hne|_]; [by destruct Hne|].
  f_equal.
Qed.

(** The fields [struct.unpack] reads from a packet laid out as the wire
    format has it. *)
Lemma unpackResponse_packet command payload hi lo etx :
  String.length command = 4%nat →
  unpackResponse
    ([ASCII_CONTROL.STX] ++ codes COMMAND.HEADER
     ++ [Z.of_nat (7 + length payload)] ++ codes command ++ payload ++ [hi; lo; etx])
    (Z.of_nat (7 + length payload))
  = {| rsp_command := command; rsp_data := payload;
       rsp_crc := Z.land (Z.shiftl hi 8 + lo) 0xFFFF |}.
Proof.
  intros Hcmd. unfold unpackResponse.
  replace (Z.to_nat (Z.of_nat (7 + length payload) - 7)) with (length payload) by lia.
  set (pre := [ASCII_CONTROL.STX] ++ codes COMMAND.HEADER
              ++ [Z.of_nat (7 + length payload)]).
  assert (length pre = 6%nat) as Hpre by reflexivity.
  f_equal.
  - replace (_ ++ _) with (pre ++ codes command ++ (payload ++ [hi; lo; etx]))
      by (unfold pre; by rewrite <- !app_assoc).
    by apply extractString_at.
  - replace (_ ++ _) with ((pre ++ codes command) ++ payload ++ [hi; lo; etx])
      by (unfold pre; by rewrite <- !app_assoc).
    apply extractBytes_at; [|done].
    rewrite length_app, codes_length, Hcmd, Hpre. reflexivity.
  - replace (_ ++ _) with ((pre ++ codes command ++ payload) ++ hi :: lo :: [etx])
      by (unfold pre; by rewrite <- !app_assoc).
    apply extractBEShort_at.
    rewrite !length_app, codes_length, Hcmd, Hpre. lia.
Qed.

Hypothesis calcCRC_A_range : ∀ bytes size, 0 ≤ calcCRC_A bytes size < 65536.
Hypothesis calcCRC_A_prefix :
  ∀ bytes rest, calcCRC_A (bytes ++ rest) (length bytes) = calcCRC_A bytes (length bytes).

(** C3. For every 4-character command and every payload of bytes whose
    length the one-byte size field can hold, decoding the packet that
    [buildPacket] produces, without its leading length byte, gives back
    the same command and the same payload, and the checksum of the
    packet verifies. *)
Theorem buildPacket_decodes (command : string) (payload : list Z) :
  String.length command = 4%nat →
  Forall is_byte payload →
  (7 + length payload ≤ 255)%nat →
  let packet := drop 1 (buildPacket calcCRC_A command payload) in
  ∃ r, extractPacketIntoMessages calcCRC_A packet = Ok r
       ∧ rsp_command r = command
       ∧ rsp_data r = payload
       ∧ verifyChecksum calcCRC_A packet (rsp_crc r) = Ok tt.
Proof.
  intros Hcmd Hpay Hlen packet. unfold packet.
  rewrite buildPacket_frame by done.
  set (crc := calcCRC_A _ _).
  assert (0 ≤ crc < 65536) as Hcrc by apply calcCRC_A_range.
  unfold frame. cbn [app drop].
  rewrite (Z.mod_small (Z.of_nat (7 + length payload))) by lia.
  set (hi := Z.land (Z.shiftr crc 8) 255 mod 256).
  set (lo := Z.land crc 255 mod 256).
  set (bytes := ASCII_CONTROL.STX :: _).
  assert (bytes = [ASCII_CONTROL.STX] ++ codes COMMAND.HEADER
                  ++ [Z.of_nat (7 + length payload)] ++ codes command ++ payload
                  ++ [hi; lo; ASCII_CONTROL.ETX]) as Hbytes by reflexivity.
  assert (verifyChecksum calcCRC_A bytes crc = Ok tt) as Hverify.
  { unfold verifyChecksum.
    assert (bytes = ([ASCII_CONTROL.STX] ++ codes COMMAND.HEADER
                  ++ [Z.of_nat (7 + length payload)] ++ codes command ++ payload)
                  ++ [hi; lo; ASCII_CONTROL.ETX]) as ->
      by (rewrite Hbytes; by rewrite <- !app_assoc).
    rewrite splice_checksum.
    match goal with |- context [decide (?c ≠ crc)] => assert (c = crc) as -> end.
    { unfold crc, covered. rewrite (Z.mod_small (Z.of_nat (7 + length payload))) by lia.
      rewrite <- calcCRC_A_prefix with (rest := [0; 0]).
      f_equal.
      - by rewrite <- !app_assoc.
      - rewrite !length_app, !codes_length, Hcmd. simpl. lia. }
    destruct (decide (crc ≠ crc)) as [Hne|_]; [by destruct Hne | reflexivity]. }
  assert (unpackResponse bytes (Z.of_nat (7 + length payload))
          = {| rsp_command := command; rsp_data := payload; rsp_crc := crc |}) as Hr.
  { rewrite Hbytes, unpackResponse_packet by done.
    f_equal. by apply short_bytes. }
  exists {| rsp_command := command; rsp_data := payload; rsp_crc := crc |}.
  split; [|by repeat split].
  unfold extractPacketIntoMessages.
  rewrite Hbytes at 1. rewrite extractHeader_magic. cbn [hdr_size].
  rewrite Hr. cbn [rsp_command rsp_crc]. rewrite Hverify.
  by destruct (decide (command ≠ COMMAND.GLUCOSE_RESULT)).
Qed.

(** A packet with the two bytes of its checksum field replaced, and a
    packet without its checksum field. *)
Definition withChecksum (bytes : list Z) (c1 c2 : Z) : list Z :=
  take (length bytes - 3) bytes ++ [c1; c2] ++ drop (length bytes - 1) bytes.

Definition withoutChecksum (bytes : list Z) : list Z :=
  take (length bytes - 3) bytes ++ drop (length bytes - 1) bytes.

Lemma extractHeader_prefix pre t t' :
  (6 ≤ length pre)%nat → extractHeader (pre ++ t) = extractHeader (pre ++ t').
Proof.
  intros H. unfold extractHeader, extractString.
  by rewrite !extractBytes_prefix, !extractByte_prefix by lia.
Qed.

Lemma unpackResponse_prefix pre t size :
  (10 + Z.to_nat (size - 7) ≤ length pre)%nat →
  rsp_command (unpackResponse (pre ++ t) size) = rsp_command (unpackResponse pre size)
  ∧ rsp_data (unpackResponse (pre ++ t) size) = rsp_data (unpackResponse pre size).
Proof.
  intros H. unfold unpackResponse, extractString. cbn [rsp_command rsp_data].
  by rewrite !extractBytes_prefix by lia.
Qed.

Lemma splice_withoutChecksum bytes :
  (3 ≤ length bytes)%nat →
  splice bytes (Z.of_nat (length bytes) - 3) 2 = withoutChecksum bytes.
Proof.
  intros H. unfold splice, withoutChecksum.
  destruct (Z.ltb_spec (Z.of_nat (length bytes) - 3) 0) as [?|_]; [lia|].
  rewrite Z.min_l by lia.
  replace (Z.to_nat (Z.of_nat (length bytes) - 3)) with (length bytes - 3)%nat by lia.
  do 2 f_equal. lia.
Qed.

(** For a command other than the glucose result the decoder runs
    [verifyChecksum]; for the glucose result it does not. *)
Lemma extractPacketIntoMessages_glucose bytes fields :
  extractHeader bytes = Ok fields →
  rsp_command (unpackResponse bytes (hdr_size fields)) = COMMAND.GLUCOSE_RESULT →
  extractPacketIntoMessages calcCRC_A bytes = Ok (unpackResponse bytes (hdr_size fields)).
Proof.
  intros Hh Hc. unfold extractPacketIntoMessages. rewrite Hh.
  cbv zeta. by destruct (decide _).
Qed.

Lemma glucose_result_never_fails_checksum bytes :
  rsp_command (unpackResponse bytes (extractByte bytes 5)) = COMMAND.GLUCOSE_RESULT →
  extractPacketIntoMessages calcCRC_A bytes ≠ Throw "Checksum mismatch".
Proof.
  intros Hc. unfold extractPacketIntoMessages.
  destruct (extractHeader bytes) as [fields|msg] eqn:Hh.
  - assert (hdr_size fields = extractByte bytes 5) as ->.
    { unfold extractHeader in Hh. destruct (decide _); [discriminate|].
      by inversion Hh. }
    cbv zeta. rewrite Hc. by destruct (decide _).
  - apply extractHeader_throws in Hh as ->. discriminate.
Qed.

(** C2. In a reassembled packet (magic in place, size byte at least 7,
    length equal to size + 6) whose command is the glucose result,
    decoding accepts the packet whatever the two bytes of its checksum
    field are; with any other command, when the stored checksum differs
    from the checksum recomputed over the packet without its checksum
    field, decoding fails with the checksum error. *)
Theorem glucose_result_exempt_from_checksum (bytes : list Z) (fields : headerFields) :
  extractHeader bytes = Ok fields →
  7 ≤ hdr_size fields →
  Z.of_nat (length bytes) = hdr_size fields + 6 →
  let r := unpackResponse bytes (hdr_size fields) in
  (rsp_command r = COMMAND.GLUCOSE_RESULT →
     extractPacketIntoMessages calcCRC_A bytes = Ok r
     ∧ ∀ c1 c2, is_byte c1 → is_byte c2 →
         extractPacketIntoMessages calcCRC_A (withChecksum bytes c1 c2)
         = Ok {| rsp_command := COMMAND.GLUCOSE_RESULT;
                 rsp_data := rsp_data r;
                 rsp_crc := c1 * 256 + c2 |})
  ∧ (rsp_command r ≠ COMMAND.GLUCOSE_RESULT →
     rsp_crc r ≠ calcCRC_A (withoutChecksum bytes) (length (withoutChecksum bytes)) →
     extractPacketIntoMessages calcCRC_A bytes = Throw "Checksum mismatch").
Proof.
  intros Hh Hsize Hlen r. split.
  - intros Hcmd. split; [by apply extractPacketIntoMessages_glucose|].
    intros c1 c2 Hc1 Hc2.
    set (pre := take (length bytes - 3) bytes).
    assert (length pre = Z.to_nat (hdr_size fields + 3)) as Hpre
      by (unfold pre; rewrite length_take; lia).
    assert (bytes = pre ++ drop (length bytes - 3) bytes) as Hsplit
      by (unfold pre; by rewrite take_drop).
    assert (extractHeader (withChecksum bytes c1 c2) = Ok fields) as Hh'.
    { rewrite <- Hh. unfold withChecksum. fold pre.
      transitivity (extractHeader (pre ++ drop (length bytes - 3) bytes));
        [apply extractHeader_prefix; lia | by rewrite <- Hsplit]. }
    destruct (unpackResponse_prefix pre (drop (length bytes - 3) bytes)
                (hdr_size fields)) as [Ec Ed]; [lia|].
    destruct (unpackResponse_prefix pre ([c1; c2] ++ drop (length bytes - 1) bytes)
                (hdr_size fields)) as [Ec' Ed']; [lia|].
    rewrite <- Hsplit in Ec, Ed. fold r in Ec, Ed.
    rewrite (extractPacketIntoMessages_glucose _ fields Hh').
    + unfold withChecksum. fold pre. f_equal.
      transitivity
        {| rsp_command := rsp_command (unpackResponse (pre ++ [c1; c2] ++ drop (length bytes - 1) bytes) (hdr_size fields));
           rsp_data := rsp_data (unpackResponse (pre ++ [c1; c2] ++ drop (length bytes - 1) bytes) (hdr_size fields));
           rsp_crc := rsp_crc (unpackResponse (pre ++ [c1; c2] ++ drop (length bytes - 1) bytes) (hdr_size fields)) |};
        [by destruct (unpackResponse _ _)|].
      rewrite Ec', Ed', <- Ec, <- Ed, Hcmd. f_equal.
      unfold unpackResponse. cbn [rsp_crc app].
      rewrite extractBEShort_at by lia.
      unfold is_byte in Hc1, Hc2.
      change 0xFFFF with (Z.ones 16). rewrite Z.land_ones by lia.
      rewrite Z.shiftl_mul_pow2 by lia. change (2 ^ 8) with 256.
      apply Z.mod_small. change (2 ^ 16) with 65536. lia.
    + unfold withChecksum. fold pre. rewrite Ec', <- Ec. exact Hcmd.
  - intros Hcmd Hcrc. unfold extractPacketIntoMessages. rewrite Hh.
    cbv zeta. fold r.
    destruct (decide (rsp_command r ≠ COMMAND.GLUCOSE_RESULT)) as [_|Hn];
      [|by destruct Hn].
    unfold verifyChecksum. rewrite splice_withoutChecksum by lia.
    destruct (decide _) as [_|Heq]; [reflexivity|].
    exfalso. apply Hcrc. apply dec_stable in Heq. by rewrite Heq.
Qed.

End CodecFacts.

(** ** The reassembly loop *)

(** The bytes of a report that its length prefix declares valid. *)
Definition reportPayload (result : list Z) : list Z :=
  slice result 1 (extractByte result 0 + 1).

(** A transport on which every read times out. *)
Definition silent : nat → list Z := λ _, [].

(** No prefix of the sequence completes reassembly. *)
Definition neverCompletes (recv : nat → list Z) : Prop :=
  ∀ n st, readReports (firstReports recv n) initialRead ≠ Complete st.

(** The loop ends with the timeout error after some number of reads. *)
Definition timesOut (recv : nat → list Z) : Prop :=
  ∃ n, readReports (firstReports recv n) initialRead = Failed "Communication timeout".

Lemma readReport_timeout st : readReport st [] = Reading st.
Proof. reflexivity. Qed.

Lemma readReport_without_STX st result :
  foundSTX st = false →
  ASCII_CONTROL.STX ∉ reportPayload result →
  readReport st result = Reading st.
Proof.
  intros Hst Hno. unfold readReport.
  destruct (decide _) as [_|_]; [|reflexivity].
  rewrite Hst. fold (reportPayload result).
  by rewrite bool_decide_eq_false_2.
Qed.

Lemma readReport_failure st result msg :
  readReport st result = Failed msg → msg = "Header not found".
Proof.
  unfold readReport.
  destruct (decide (0 < length result)%nat); [|discriminate].
  destruct (if foundSTX st then true else _); [|discriminate].
  destruct (decide (length _ = HEADER_SIZE)).
  - destruct (extractHeader _) eqn:E.
    + destruct (_ && _); discriminate.
    + intros H. inversion H; subst. by apply extractHeader_throws in E.
  - destruct (_ && _); discriminate.
Qed.

Lemma readReports_failure reports : ∀ st msg,
  readReports reports st = Failed msg → msg = "Header not found".
Proof.
  induction reports as [|r reports IH]; intros st msg; simpl; [discriminate|].
  destruct (readReport st r) eqn:E; [apply IH | discriminate |].
  intros H. inversion H; subst. by apply readReport_failure in E.
Qed.

Lemma readReports_without_STX reports : ∀ st,
  foundSTX st = false →
  Forall (λ result, ASCII_CONTROL.STX ∉ reportPayload result) reports →
  readReports reports st = Reading st.
Proof.
  induction reports as [|r reports IH]; intros st Hst Hall; [reflexivity|].
  inversion Hall; subst. simpl.
  rewrite readReport_without_STX by done. by apply IH.
Qed.

Lemma firstReports_silent n : firstReports silent n = replicate n [].
Proof.
  unfold firstReports. generalize 0%nat.
  induction n as [|n IH]; intros k; simpl; [reflexivity | by rewrite IH].
Qed.

Lemma readReports_timeouts n st : readReports (replicate n []) st = Reading st.
Proof. induction n as [|n IH]; simpl; [reflexivity | exact IH]. Qed.

(** C1, as stated, fails: on a transport whose every read times out the
    loop never completes reassembly, yet it never ends with the timeout
    error either; it is still reading after any number of reads. *)
Lemma silent_transport_never_times_out :
  neverCompletes silent
  ∧ ¬ timesOut silent
  ∧ ∀ n, readReports (firstReports silent n) initialRead = Reading initialRead.
Proof.
  split; [|split].
  - intros n st. by rewrite firstReports_silent, readReports_timeouts.
  - intros [n H]. by rewrite firstReports_silent, readReports_timeouts in H.
  - intros n. by rewrite firstReports_silent, readReports_timeouts.
Qed.

(** C1, amended. For every sequence of reports none of which completes
    reassembly, the loop has not failed with a timeout when the reports
    are used up: it is about to read again, or it has thrown the header
    error; and when no report carries the start byte in its payload
    (empty results of timed-out reads included), it is about to read
    again with its state untouched. *)
Theorem read_loop_has_no_timeout_exit (reports : list (list Z)) :
  (∀ st, readReports reports initialRead ≠ Complete st) →
  ((∃ st, readReports reports initialRead = Reading st)
   ∨ readReports reports initialRead = Failed "Header not found")
  ∧ readReports reports initialRead ≠ Failed "Communication timeout"
  ∧ (Forall (λ result, ASCII_CONTROL.STX ∉ reportPayload result) reports →
     readReports reports initialRead = Reading initialRead).
Proof.
  intros Hnever. split; [|split].
  - destruct (readReports reports initialRead) as [st|st|msg] eqn:E.
    + left. by exists st.
    + by destruct (Hnever st).
    + right. by rewrite (readReports_failure _ _ _ E).
  - intros H. by apply readReports_failure in H.
  - intros Hall. by apply readReports_without_STX.
Qed.

(** The timeout error of [commandResponse] is the name of the device's
    own [TOUT] token: it can only come out of a packet that has been
    reassembled and decoded. *)
Lemma getName_timeout token :
  getName ERROR token = "Communication timeout" → token = "TOUT".
Proof.
  unfold ERROR. cbn [getName].
  repeat (destruct (decide _) as [?|?]; [try done; try discriminate|]).
  discriminate.
Qed.

Lemma timeout_needs_a_TOUT_packet calcCRC_A reports :
  commandResponseOn calcCRC_A reports = Raised "Communication timeout" →
  ∃ st r, readReports reports initialRead = Complete st
          ∧ extractPacketIntoMessages calcCRC_A (raw st) = Ok r
          ∧ rsp_command r = "TOUT".
Proof.
  unfold commandResponseOn.
  destruct (readReports reports initialRead) as [st|st|msg] eqn:E; [discriminate| |].
  - unfold checkMessage.
    destruct (decide (0 < length (raw st))%nat) as [_|_].
    + destruct (extractPacketIntoMessages calcCRC_A (raw st)) as [r|msg] eqn:Er.
      * destruct (decide _) as [_|_]; [|discriminate].
        intros H. inversion H as [Hname]. apply getName_timeout in Hname.
        by exists st, r.
      * intros H. inversion H; subst.
        unfold extractPacketIntoMessages in Er.
        destruct (extractHeader (raw st)) as [f|m] eqn:Eh.
        -- destruct (decide _) as [_|_]; [|discriminate].
           unfold verifyChecksum in Er.
           destruct (decide _) as [_|_]; discriminate.
        -- inversion Er; subst. by apply extractHeader_throws in Eh.
    + destruct (decide _) as [Hne|_]; [by destruct Hne | discriminate].
  - intros H. inversion H; subst. by apply readReports_failure in E.
Qed.

(** A report whose length prefix covers exactly the bytes it carries. *)
Definition reportOf (bytes : list Z) : list Z := Z.of_nat (length bytes) :: bytes.

Lemma reportPayload_reportOf bytes : reportPayload (reportOf bytes) = bytes.
Proof.
  unfold reportPayload, reportOf, slice, extractByte.
  cbn [lookup list_lookup default length]. unfold id.
  destruct (Z.ltb_spec (Z.of_nat (length bytes) + 1) 0) as [?|_]; [lia|].
  rewrite Z.min_l by lia.
  replace (Z.to_nat (Z.of_nat (length bytes) + 1)) with (S (length bytes)) by lia.
  cbn [take drop]. by rewrite take_ge.
Qed.

(** One iteration on a report that extends a buffer already started, or
    starts it, when the buffer does not become exactly 6 bytes long. *)
Lemma readReport_no_header st bytes :
  foundSTX st = true ∨ ASCII_CONTROL.STX ∈ bytes →
  length (raw st ++ bytes) ≠ HEADER_SIZE →
  readReport st (reportOf bytes)
  = let st1 := {| raw := raw st ++ bytes; foundSTX := true;
                  packetSize := packetSize st |} in
    if bool_decide (ASCII_CONTROL.ETX ∈ bytes)
       && bool_decide (packetSize st + 6 ≤ Z.of_nat (length (raw st ++ bytes)))
    then Complete st1 else Reading st1.
Proof.
  intros Hstx Hlen. unfold readReport.
  destruct (decide _) as [_|Hn]; [|simpl in Hn; lia].
  fold (reportPayload (reportOf bytes)). rewrite reportPayload_reportOf.
  assert ((if foundSTX st then true else bool_decide (ASCII_CONTROL.STX ∈ bytes)) = true) as ->.
  { destruct Hstx as [-> | H]; [done|]. destruct (foundSTX st); [done|].
    by apply bool_decide_eq_true_2. }
  by destruct (decide _).
Qed.

(** One iteration on a report that makes the buffer exactly 6 bytes long
    with the magic in place. *)
Lemma readReport_header st bytes fields :
  foundSTX st = true ∨ ASCII_CONTROL.STX ∈ bytes →
  length (raw st ++ bytes) = HEADER_SIZE →
  extractHeader (raw st ++ bytes) = Ok fields →
  readReport st (reportOf bytes)
  = let st1 := {| raw := raw st ++ bytes; foundSTX := true;
                  packetSize := hdr_size fields |} in
    if bool_decide (ASCII_CONTROL.ETX ∈ bytes)
       && bool_decide (hdr_size fields + 6 ≤ Z.of_nat (length (raw st ++ bytes)))
    then Complete st1 else Reading st1.
Proof.
  intros Hstx Hlen Hh. unfold readReport.
  destruct (decide _) as [_|Hn]; [|simpl in Hn; lia].
  fold (reportPayload (reportOf bytes)). rewrite reportPayload_reportOf.
  assert ((if foundSTX st then true else bool_decide (ASCII_CONTROL.STX ∈ bytes)) = true) as ->.
  { destruct Hstx as [-> | H]; [done|]. destruct (foundSTX st); [done|].
    by apply bool_decide_eq_true_2. }
  destruct (decide _) as [_|Hn]; [|done].
  by rewrite Hh.
Qed.

(** The reports of a transport that delivers one packet whole and then
    times out [n] times. *)
Definition wholeThenSilence (packet : list Z) (n : nat) : list (list Z) :=
  reportOf packet :: replicate n [].

(** A valid response to the index query with two data bytes: size 9,
    command [NCOT], any two checksum bytes. *)
Definition indexReply (c1 c2 : Z) : list Z :=
  [ASCII_CONTROL.STX] ++ codes COMMAND.HEADER ++ [9]
  ++ codes COMMAND.CURRENT_INDEX ++ [0; 5] ++ [c1; c2; ASCII_CONTROL.ETX].

(** C5, where the code departs from it. A valid 15-byte packet that
    arrives whole in one report is not reassembled: the buffer goes from
    0 to 15 bytes without ever being 6 bytes long, the header is not
    decoded, the expected size stays at 64, and the loop goes on reading
    however many reads follow. *)
Theorem whole_packet_in_one_report_is_not_reassembled (c1 c2 : Z) (n : nat) :
  readReports (wholeThenSilence (indexReply c1 c2) n) initialRead
  = Reading {| raw := indexReply c1 c2; foundSTX := true; packetSize := 64 |}.
Proof.
  unfold wholeThenSilence. cbn [readReports].
  rewrite readReport_no_header.
  - cbn [raw packetSize initialRead app].
    rewrite (bool_decide_eq_false_2 (_ ≤ _)) by (simpl; lia).
    rewrite andb_false_r. apply readReports_timeouts.
  - right. unfold indexReply. set_solver.
  - discriminate.
Qed.

(** The same packet split after its sixth byte is reassembled. *)
Lemma packet_split_after_header_is_reassembled c1 c2 :
  readReports [reportOf (take 6 (indexReply c1 c2));
               reportOf (drop 6 (indexReply c1 c2))] initialRead
  = Complete {| raw := indexReply c1 c2; foundSTX := true; packetSize := 9 |}.
Proof.
  cbn [readReports].
  rewrite (readReport_header _ _ {| hdr_header := COMMAND.HEADER; hdr_size := 9 |});
    [| right; cbn; set_solver | reflexivity | reflexivity].
  cbn [raw initialRead app hdr_size].
  rewrite (bool_decide_eq_false_2 (_ ≤ _)) by (simpl; lia).
  rewrite andb_false_r.
  rewrite readReport_no_header; [| by left | discriminate].
  cbn [raw packetSize].
  rewrite bool_decide_eq_true_2 by (cbn; set_solver).
  rewrite bool_decide_eq_true_2 by (simpl; lia).
  reflexivity.
Qed.

(** Reassembly when a report ends exactly where the header ends.

    [packet] is a whole packet (magic in place, length equal to size +
    6, STX first, ETX last), cut into non-empty fragments, one fragment
    per report, so that some report ends after the sixth byte. *)
Section Reassembly.

Variable packet : list Z.
Variable fields : headerFields.
Hypothesis packet_header : extractHeader packet = Ok fields.
Hypothesis packet_length : Z.of_nat (length packet) = hdr_size fields + 6.
Hypothesis packet_first : head packet = Some ASCII_CONTROL.STX.
Hypothesis packet_last : last packet = Some ASCII_CONTROL.ETX.

Lemma reassemble_rest rest : ∀ st,
  packet = raw st ++ concat rest →
  rest ≠ [] →
  Forall (λ f, f ≠ []) rest →
  (foundSTX st = true ∨ raw st = []) →
  ((6 ≤ length (raw st))%nat → packetSize st = hdr_size fields) →
  ((length (raw st) < 6)%nat →
     packetSize st = 64
     ∧ ∃ k, length (raw st ++ concat (take k rest)) = 6%nat) →
  readReports (reportOf <$> rest) st
  = Complete {| raw := packet; foundSTX := true; packetSize := hdr_size fields |}.
Proof.
  induction rest as [|f rest IH]; intros st Hsplit Hne Hfrags Hstx Hdecoded Hpending;
    [done|].
  apply Forall_cons in Hfrags as [Hf Hrest]. clear Hne.
  cbn [concat] in Hsplit. rewrite app_assoc in Hsplit.
  assert (foundSTX st = true ∨ ASCII_CONTROL.STX ∈ f) as Hstart.
  { destruct Hstx as [?|Hraw]; [by left|]. right.
    rewrite Hraw in Hsplit. cbn [app] in Hsplit.
    pose proof packet_first as Hfirst.
    rewrite Hsplit, head_app in Hfirst.
    destruct f as [|b f]; [done|]. simpl in Hfirst.
    inversion Hfirst. apply elem_of_cons. by left. }
  assert (rest = [] → ASCII_CONTROL.ETX ∈ f) as Hend.
  { intros ->. cbn [concat] in Hsplit. rewrite app_nil_r in Hsplit.
    pose proof packet_last as Hlast.
    rewrite Hsplit, last_app in Hlast.
    destruct (last f) as [b|] eqn:Hl.
    - inversion Hlast as [Hb]. rewrite Hb in Hl. by apply last_Some_elem_of.
    - by destruct f using rev_ind; [|rewrite last_snoc in Hl]. }
  assert (rest ≠ [] → (length (raw st ++ f) < length packet)%nat) as Hmore.
  { intros Hr. rewrite Hsplit, (length_app (raw st ++ f)).
    destruct rest as [|g rest']; [done|].
    apply Forall_cons in Hrest as [Hg _].
    destruct g; [done|]. cbn [concat]. rewrite length_app. simpl. lia. }
  assert (f ≠ [] → (length (raw st) < length (raw st ++ f))%nat) as Hgrow.
  { intros _. rewrite length_app. destruct f; [done|]. simpl. lia. }
  specialize (Hgrow Hf).
  cbn [fmap list_fmap readReports].
  destruct (decide (length (raw st ++ f) = HEADER_SIZE)) as [Hsix|Hnot].
  - (* this report ends where the header ends *)
    assert (extractHeader (raw st ++ f) = Ok fields) as Hh.
    { rewrite <- packet_header, Hsplit.
      rewrite <- (app_nil_r (raw st ++ f)) at 1.
      apply extractHeader_prefix. unfold HEADER_SIZE in Hsix. lia. }
    rewrite (readReport_header st f fields Hstart Hsix Hh). cbv zeta.
    destruct rest as [|g rest'].
    + cbn [concat] in Hsplit. rewrite app_nil_r in Hsplit. rewrite <- Hsplit.
      rewrite bool_decide_eq_true_2 by (by apply Hend).
      rewrite bool_decide_eq_true_2 by lia. reflexivity.
    + rewrite (bool_decide_eq_false_2 (_ ≤ _))
        by (specialize (Hmore ltac:(done)); unfold HEADER_SIZE in Hsix; lia).
      rewrite andb_false_r.
      apply IH; cbn [raw foundSTX packetSize]; try done.
      * by left.
      * unfold HEADER_SIZE in Hsix. intros. lia.
  - rewrite (readReport_no_header st f Hstart Hnot). cbv zeta.
    destruct (decide (6 ≤ length (raw st))%nat) as [Hge|Hlt].
    + rewrite (Hdecoded Hge).
      destruct rest as [|g rest'].
      * cbn [concat] in Hsplit. rewrite app_nil_r in Hsplit. rewrite <- Hsplit.
        rewrite bool_decide_eq_true_2 by (by apply Hend).
        rewrite bool_decide_eq_true_2 by lia. reflexivity.
      * rewrite (bool_decide_eq_false_2 (_ ≤ _))
          by (specialize (Hmore ltac:(done)); lia).
        rewrite andb_false_r.
        apply IH; cbn [raw foundSTX packetSize]; try done.
        -- by left.
        -- intros. lia.
    + destruct (Hpending ltac:(lia)) as [Hsize [k Hk]].
      assert (length (raw st ++ f) < 6)%nat as Hshort.
      { unfold HEADER_SIZE in Hnot. destruct k as [|k].
        - cbn [take concat] in Hk. rewrite app_nil_r in Hk. lia.
        - cbn [take concat] in Hk. rewrite app_assoc, length_app in Hk. lia. }
      rewrite Hsize.
      rewrite (bool_decide_eq_false_2 (_ ≤ _)) by lia.
      rewrite andb_false_r.
      destruct rest as [|g rest'].
      { exfalso. destruct k as [|k].
        - cbn [take concat] in Hk. rewrite app_nil_r in Hk. lia.
        - cbn [take concat] in Hk. rewrite take_nil in Hk. cbn [concat] in Hk.
          rewrite app_nil_r in Hk. lia. }
      apply IH; cbn [raw foundSTX packetSize]; try done.
      * by left.
      * intros. lia.
      * intros _. split; [done|]. destruct k as [|k].
        -- cbn [take concat] in Hk. rewrite app_nil_r in Hk. lia.
        -- exists k. cbn [take concat] in Hk. by rewrite app_assoc in Hk.
Qed.

(** Every such fragmentation is reassembled into the packet, at its last
    report. *)
Lemma reassembly_with_boundary_after_header (fragments : list (list Z)) :
  concat fragments = packet →
  Forall (λ f, f ≠ []) fragments →
  (∃ k, length (concat (take k fragments)) = 6%nat) →
  readReports (reportOf <$> fragments) initialRead
  = Complete {| raw := packet; foundSTX := true; packetSize := hdr_size fields |}.
Proof.
  intros Hcat Hfrags Hboundary.
  apply reassemble_rest; cbn [raw foundSTX packetSize initialRead app]; try done.
  - intros ->. simpl in Hcat. subst. discriminate.
  - by right.
  - simpl. lia.
Qed.

End Reassembly.

(** ** The [ping] handshake *)

(** The body of [ping], with the recursive call left as a call. *)
Lemma ping_body this :
  ping this =
  let '(result, h) := receiveTimeout (sendPromisified (hidDevice this) pingProbe).2 in
  if decide (length result = 0%nat) then
    if decide (retries this ≤ 3)%nat
    then ping {| hidDevice := h; retries := retries this + 1 |}
    else (Throw "Device not responding.", {| hidDevice := h; retries := retries this |})
  else (Ok tt, {| hidDevice := h; retries := 0 |}).
Proof.
  rewrite ping_equation_1.
  destruct (receiveTimeout _) as [result h]. simpl.
  destruct (decide (length result = 0%nat)); simpl; [|reflexivity].
  destruct (decide (retries this ≤ 3)%nat); reflexivity.
Qed.

(** One probe that goes unanswered: what it adds to the trace. *)
Definition unanswered : list hidEvent := [Sent pingProbe; Received []].

(** The number of probes a trace holds. *)
Definition isProbe (e : hidEvent) : bool :=
  match e with
  | Sent bytes => bool_decide (bytes = pingProbe)
  | Received _ => false
  end.

Definition probesSent (tr : list hidEvent) : nat :=
  length (filter (λ e, Is_true (isProbe e)) tr).

(** With the transport timing out on every read, [ping] goes on until
    the retry counter has passed 3. *)
Lemma ping_unanswered j : ∀ r tr,
  (r + j = 4)%nat →
  ping {| hidDevice := {| incoming := []; trace := tr |}; retries := r |}
  = (Throw "Device not responding.",
     {| hidDevice := {| incoming := [];
                        trace := tr ++ concat (replicate (S j) unanswered) |};
        retries := 4 |}).
Proof.
  induction j as [|j IH]; intros r tr Hr; rewrite ping_body; cbn.
  - destruct (decide (r ≤ 3)%nat) as [?|_]; [lia|].
    replace r with 4%nat by lia. by rewrite <- app_assoc.
  - destruct (decide (r ≤ 3)%nat) as [_|?]; [|lia].
    rewrite IH by lia. by rewrite <- !app_assoc.
Qed.

(** A probe answered after [k] unanswered ones. *)
Lemma ping_answered k : ∀ r tr answer rest,
  (r + k ≤ 4)%nat → answer ≠ [] →
  ping {| hidDevice := {| incoming := replicate k [] ++ answer :: rest; trace := tr |};
          retries := r |}
  = (Ok tt,
     {| hidDevice := {| incoming := rest;
                        trace := tr ++ concat (replicate k unanswered)
                                    ++ [Sent pingProbe; Received answer] |};
        retries := 0 |}).
Proof.
  induction k as [|k IH]; intros r tr answer rest Hr Hans; rewrite ping_body; cbn.
  - destruct (decide (length answer = 0%nat)) as [H|_].
    + by destruct answer.
    + by rewrite <- app_assoc.
  - destruct (decide (r ≤ 3)%nat) as [_|?]; [|lia].
    rewrite IH by (done || lia). by rewrite <- !app_assoc.
Qed.

(** C4, as stated, fails: a new driver on a transport that never
    answers sends five probes, not four, before it gives up. *)
Lemma ping_sends_five_probes :
  let '(outcome, this) := ping (newCareSens {| incoming := []; trace := [] |}) in
  outcome = Throw "Device not responding."
  ∧ probesSent (trace (hidDevice this)) = 5%nat
  ∧ probesSent (trace (hidDevice this)) ≠ 4%nat.
Proof. vm_compute. repeat split. discriminate. Qed.

(** C4, amended. The probe is the two bytes 0x01 0x80. A new driver on a
    transport whose every read comes back empty sends the probe five
    times (once, then four retries), with nothing but the timed-out read
    between two probes, and fails with "Device not responding.", the
    retry counter left at 4. When a read comes back non-empty, at the
    first probe or after up to four unanswered ones, [ping] succeeds and
    the retry counter is zero. *)
Theorem ping_retries_four_times (tr : list hidEvent) :
  pingProbe = [0x01; 0x80]
  ∧ ping (newCareSens {| incoming := []; trace := tr |})
    = (Throw "Device not responding.",
       {| hidDevice := {| incoming := [];
                          trace := tr ++ concat (replicate 5 unanswered) |};
          retries := 4 |})
  ∧ ∀ k answer rest,
      (k ≤ 4)%nat → answer ≠ [] →
      ping (newCareSens {| incoming := replicate k [] ++ answer :: rest; trace := tr |})
      = (Ok tt,
         {| hidDevice := {| incoming := rest;
                            trace := tr ++ concat (replicate k unanswered)
                                        ++ [Sent pingProbe; Received answer] |};
            retries := 0 |}).
Proof.
  split; [reflexivity|]. split.
  - unfold newCareSens. by rewrite (ping_unanswered 4).
  - intros k answer rest Hk Hans. unfold newCareSens. by apply ping_answered.
Qed.

(** ** Fetching the records *)

(** The pages a fetch of [n] records asks for, from start index [s] on:
    start index and record count of each request. *)
Definition pagesFrom (n s : Z) : list (Z * Z) :=
  (λ k, let start := s + 27 * Z.of_nat k in (start, Z.min 27 (n - start + 1)))
    <$> seq 0 (Z.to_nat ((n - s + 27) / 27)).

Definition pages (n : Z) : list (Z * Z) := pagesFrom n 1.

(** The records of one page response: [count] records, 9 bytes apart. *)
Definition pageRecords (data : list Z) (count : nat) : list rawRecord :=
  (λ i, unpackRecord data (9 * i)) <$> seq 0 count.

Lemma extractByte_app_r pre l j :
  extractByte (pre ++ l) (length pre + j) = extractByte l j.
Proof.
  unfold extractByte. rewrite lookup_app_r by lia.
  by replace (length pre + j - length pre)%nat with j by lia.
Qed.

Lemma extractBEShort_app_r pre l j :
  extractBEShort (pre ++ l) (length pre + j) = extractBEShort l j.
Proof.
  unfold extractBEShort.
  replace (S (length pre + j)) with (length pre + S j)%nat by lia.
  by rewrite !extractByte_app_r.
Qed.

(** Two bytes read as a 16-bit value, high byte first. *)
Lemma big_endian_short hi lo :
  is_byte hi → is_byte lo → Z.land (Z.shiftl hi 8 + lo) 0xFFFF = 256 * hi + lo.
Proof.
  unfold is_byte. intros Hhi Hlo.
  change 0xFFFF with (Z.ones 16).
  rewrite Z.land_ones, Z.shiftl_mul_pow2 by lia.
  change (2 ^ 8) with 256. change (2 ^ 16) with 65536.
  rewrite Z.mod_small; lia.
Qed.

Lemma pages_lookup n k start count :
  pages n !! k = Some (start, count) →
  start = 1 + 27 * Z.of_nat k
  ∧ count = Z.min 27 (n - start + 1)
  ∧ (k < length (pages n))%nat.
Proof.
  intros Hk. pose proof (lookup_lt_Some _ _ _ Hk) as Hlt.
  unfold pages, pagesFrom in Hk.
  rewrite list_lookup_fmap in Hk.
  destruct (seq 0 _ !! k) as [i|] eqn:Hi; [|discriminate].
  apply lookup_seq in Hi as [-> _]. simpl in Hk. by inversion Hk.
Qed.

Lemma pageRequest_bytes start count :
  pageRequest start count
  = [Z.land (Z.shiftr start 8) 255 mod 256; Z.land start 255 mod 256;
     count mod 256].
Proof. reflexivity. Qed.

(** The request of a page is three bytes: the start index as a 16-bit
    value, high byte first, then the count. *)
Lemma pageRequest_explicit start count :
  0 ≤ count < 256 →
  pageRequest start count = [(start / 256) mod 256; start mod 256; count].
Proof.
  intros Hc. rewrite pageRequest_bytes.
  change 255 with (Z.ones 8). rewrite !Z.land_ones, Z.shiftr_div_pow2 by lia.
  change (2 ^ 8) with 256. rewrite !Z.mod_mod by lia.
  by rewrite (Z.mod_small count) by lia.
Qed.

(** The record read at the nine bytes that follow [pre]. *)
Lemma unpackRecord_nine pre y mo d h mi s f vh vl post :
  is_byte vh → is_byte vl →
  unpackRecord (pre ++ [y; mo; d; h; mi; s; f; vh; vl] ++ post) (length pre)
  = {| year := y + 2000; month := mo; day := d;
       hours := h; minutes := mi; seconds := s;
       flags := f; value := 256 * vh + vl;
       jsDate := {| ts_year := y + 2000; ts_month := mo; ts_day := d;
                    ts_hours := h; ts_minutes := mi; ts_seconds := s |} |}.
Proof.
  intros Hvh Hvl. unfold unpackRecord.
  pose proof (extractByte_app_r pre ([y; mo; d; h; mi; s; f; vh; vl] ++ post) 0)
    as Hzero.
  rewrite Nat.add_0_r in Hzero.
  rewrite !Hzero, !extractByte_app_r, extractBEShort_app_r.
  unfold extractBEShort, extractByte.
  cbn [app lookup list_lookup default]. unfold id.
  by rewrite big_endian_short.
Qed.

Lemma pageRecords_length data count : length (pageRecords data count) = count.
Proof. unfold pageRecords. by rewrite length_fmap, length_seq. Qed.

Lemma pageRecords_lookup data count i :
  (i < count)%nat →
  pageRecords data count !! i = Some (unpackRecord data (9 * i)).
Proof.
  intros Hi. unfold pageRecords.
  by rewrite list_lookup_fmap, lookup_seq_lt.
Qed.

(** The nine bytes of a record on the wire: two-digit year, month, day,
    hours, minutes, seconds, flags, and the value high byte first. *)
Definition recordBytes (r : rawRecord) : list Z :=
  [year r - 2000; month r; day r; hours r; minutes r; seconds r; flags r;
   value r / 256; value r mod 256].

(** The records that nine bytes can hold. *)
Definition wireRecord (r : rawRecord) : Prop :=
  is_byte (year r - 2000) ∧ is_byte (month r) ∧ is_byte (day r)
  ∧ is_byte (hours r) ∧ is_byte (minutes r) ∧ is_byte (seconds r)
  ∧ is_byte (flags r) ∧ 0 ≤ value r < 65536
  ∧ jsDate r = {| ts_year := year r; ts_month := month r; ts_day := day r;
                  ts_hours := hours r; ts_minutes := minutes r;
                  ts_seconds := seconds r |}.

Lemma unpackRecord_recordBytes pre r post :
  wireRecord r →
  unpackRecord (pre ++ recordBytes r ++ post) (length pre) = r.
Proof.
  intros (Hy & Hmo & Hd & Hh & Hmi & Hs & Hf & Hv & Hdate).
  unfold unpackRecord.
  pose proof (extractByte_app_r pre (recordBytes r ++ post) 0) as Hzero.
  rewrite Nat.add_0_r in Hzero.
  rewrite !Hzero, !extractByte_app_r, extractBEShort_app_r.
  unfold extractBEShort, extractByte, recordBytes.
  cbn [app lookup list_lookup default]. unfold id.
  assert (Z.land (Z.shiftl (value r / 256) 8 + value r mod 256) 65535 = value r)
    as ->.
  { change 65535 with (Z.ones 16). rewrite Z.land_ones, Z.shiftl_mul_pow2 by lia.
    change (2 ^ 8) with 256. change (2 ^ 16) with 65536.
    pose proof (Z.div_mod (value r) 256 ltac:(lia)).
    rewrite Z.mod_small; lia. }
  replace (year r - 2000 + 2000) with (year r) by lia.
  destruct r as [y mo d h mi s f v date]. cbn in *. by rewrite Hdate.
Qed.

(** A response that holds the bytes of some records one after the other
    decodes to these records. *)
Lemma pageRecords_recordBytes rs rest :
  Forall wireRecord rs →
  pageRecords (concat (recordBytes <$> rs) ++ rest) (length rs) = rs.
Proof.
  intros Hrs. unfold pageRecords.
  assert (∀ pre,
    (λ i, unpackRecord (pre ++ concat (recordBytes <$> rs) ++ rest)
            (length pre + 9 * i)) <$> seq 0 (length rs) = rs) as Hall.
  { induction Hrs as [|r rs Hr _ IH]; intros pre; [reflexivity|].
    cbn [length seq fmap list_fmap concat].
    rewrite Nat.mul_0_r, Nat.add_0_r, <- (app_assoc (recordBytes r)).
    rewrite unpackRecord_recordBytes by done. f_equal.
    rewrite <- fmap_S_seq, <- list_fmap_compose.
    specialize (IH (pre ++ recordBytes r)).
    rewrite <- IH at 2. apply list_fmap_ext. intros _ i _. cbn.
    rewrite <- (app_assoc pre). f_equal.
    rewrite length_app. cbn [length recordBytes]. lia. }
  exact (Hall []).
Qed.

Section FetchFacts.

Variable Meter : Type.
Variable commandResponse : string → list Z → Meter → result response * Meter.

(** The requests of a list of pages issued one after the other, the
    records of every response appended in request order. *)
Fixpoint fetchPages (ps : list (Z * Z)) (m : Meter) (records : list rawRecord)
  : result (list rawRecord) * Meter :=
  match ps with
  | [] => (Ok records, m)
  | (start, count) :: rest =>
      match commandResponse COMMAND.GLUCOSE_RESULT (pageRequest start count) m with
      | (Ok result, m1) =>
          fetchPages rest m1 (records ++ pageRecords (rsp_data result) (Z.to_nat count))
      | (Throw msg, m1) => (Throw msg, m1)
      end
  end.

Lemma getRecordsFrom_body n s m records :
  getRecordsFrom Meter commandResponse n s m records =
  if decide (s ≤ n) then
    match commandResponse COMMAND.GLUCOSE_RESULT (pageRequest s (pageCount n s)) m with
    | (Ok result, m1) =>
        getRecordsFrom Meter commandResponse n (s + 27) m1
          (unpackRecords (rsp_data result) 0 (Z.to_nat (pageCount n s)) records)
    | (Throw msg, m1) => (Throw msg, m1)
    end
  else (Ok records, m).
Proof.
  rewrite getRecordsFrom_equation_1.
  destruct (decide (s ≤ n)); simpl; [|reflexivity].
  destruct (commandResponse _ _ _) as [[result|msg] m1]; reflexivity.
Qed.

Lemma unpackRecords_from data count : ∀ ctr records,
  unpackRecords data ctr count records
  = records ++ ((λ i, unpackRecord data (ctr + 9 * i)) <$> seq 0 count).
Proof.
  induction count as [|count IH]; intros ctr records; simpl.
  - by rewrite app_nil_r.
  - rewrite IH, <- app_assoc. simpl. rewrite Nat.add_0_r. do 2 f_equal.
    rewrite <- fmap_S_seq, <- list_fmap_compose.
    apply list_fmap_ext. intros _ i _. simpl. f_equal. lia.
Qed.

Lemma unpackRecords_page data count records :
  unpackRecords data 0 count records = records ++ pageRecords data count.
Proof. by rewrite unpackRecords_from. Qed.

Lemma pageCount_min n s : s ≤ n → pageCount n s = Z.min 27 (n - s + 1).
Proof.
  intros H. unfold pageCount.
  destruct (Z.geb_spec (n - s) 27); lia.
Qed.

Lemma pagesFrom_done n s : n < s → pagesFrom n s = [].
Proof.
  intros H. unfold pagesFrom.
  replace (Z.to_nat ((n - s + 27) / 27)) with 0%nat; [reflexivity|].
  assert ((n - s + 27) / 27 ≤ 0); [|lia].
  apply Z.lt_succ_r, Z.div_lt_upper_bound; lia.
Qed.

Lemma pagesFrom_step n s :
  s ≤ n → pagesFrom n s = (s, Z.min 27 (n - s + 1)) :: pagesFrom n (s + 27).
Proof.
  intros H. unfold pagesFrom.
  replace (n - s + 27) with ((n - (s + 27) + 27) + 1 * 27) by lia.
  rewrite Z.div_add by lia.
  assert (0 ≤ (n - (s + 27) + 27) / 27) by (apply Z.div_pos; lia).
  replace (Z.to_nat ((n - (s + 27) + 27) / 27 + 1))
    with (S (Z.to_nat ((n - (s + 27) + 27) / 27))) by lia.
  cbn [seq fmap list_fmap]. f_equal.
  - cbv zeta. f_equal; [lia | f_equal; lia].
  - rewrite <- fmap_S_seq, <- list_fmap_compose.
    apply list_fmap_ext. intros _ k _. simpl. f_equal; [lia | f_equal; lia].
Qed.

(** The loop of [getRecords] issues the requests of [pagesFrom]. *)
Lemma getRecordsFrom_pages n : ∀ (j : nat) s m records,
  Z.to_nat ((n - s + 27) / 27) = j →
  0 ≤ n - s + 27 →
  getRecordsFrom Meter commandResponse n s m records
  = fetchPages (pagesFrom n s) m records.
Proof.
  induction j as [|j IH]; intros s m records Hj Hs; rewrite getRecordsFrom_body.
  - assert (n < s) as Hlt.
    { destruct (Z.lt_ge_cases n s) as [?|Hge]; [done|].
      assert (1 ≤ (n - s + 27) / 27) by (apply Z.div_le_lower_bound; lia). lia. }
    destruct (decide (s ≤ n)); [lia|]. by rewrite pagesFrom_done.
  - assert (s ≤ n) as Hle.
    { destruct (Z.lt_ge_cases n s) as [Hlt|?]; [|lia].
      assert ((n - s + 27) / 27 ≤ 0); [|lia].
      apply Z.lt_succ_r, Z.div_lt_upper_bound; lia. }
    destruct (decide (s ≤ n)); [|lia].
    rewrite pagesFrom_step by done. cbn [fetchPages].
    rewrite pageCount_min by done.
    destruct (commandResponse _ _ _) as [[result|msg] m1]; [|reflexivity].
    rewrite unpackRecords_page. apply IH; [|lia].
    replace (n - s + 27) with ((n - (s + 27) + 27) + 1 * 27) in Hj by lia.
    rewrite Z.div_add in Hj by lia.
    assert (0 ≤ (n - (s + 27) + 27) / 27) by (apply Z.div_pos; lia). lia.
Qed.

(** The records asked for over all pages add up to the records left. *)
Lemma pagesFrom_total n : ∀ (j : nat) s,
  Z.to_nat ((n - s + 27) / 27) = j →
  0 ≤ n - s + 27 →
  sum_list (Z.to_nat <$> (snd <$> pagesFrom n s)) = Z.to_nat (n - s + 1).
Proof.
  induction j as [|j IH]; intros s Hj Hs.
  - assert (n < s) as Hlt.
    { destruct (Z.lt_ge_cases n s) as [?|Hge]; [done|].
      assert (1 ≤ (n - s + 27) / 27) by (apply Z.div_le_lower_bound; lia). lia. }
    rewrite pagesFrom_done by done. simpl. lia.
  - assert (s ≤ n) as Hle.
    { destruct (Z.lt_ge_cases n s) as [Hlt|?]; [|lia].
      assert ((n - s + 27) / 27 ≤ 0); [|lia].
      apply Z.lt_succ_r, Z.div_lt_upper_bound; lia. }
    rewrite pagesFrom_step by done. rewrite !fmap_cons. cbn [snd sum_list].
    rewrite IH; [unfold id; lia| |lia].
    replace (n - s + 27) with ((n - (s + 27) + 27) + 1 * 27) in Hj by lia.
    rewrite Z.div_add in Hj by lia.
    assert (0 ≤ (n - (s + 27) + 27) / 27) by (apply Z.div_pos; lia). lia.
Qed.

Lemma pages_length n : length (pages n) = Z.to_nat ((n + 26) / 27).
Proof.
  unfold pages, pagesFrom. rewrite length_fmap, length_seq.
  do 2 f_equal. lia.
Qed.

(** Start indices 1, 28, 55, ...; 27 records on every page but the
    last, which has between 1 and 27. *)
Lemma pages_shape n k start count :
  0 ≤ n →
  pages n !! k = Some (start, count) →
  start = 1 + 27 * Z.of_nat k
  ∧ 1 ≤ count ≤ 27
  ∧ ((S k < length (pages n))%nat → count = 27).
Proof.
  intros Hn Hk. rewrite pages_length.
  unfold pages, pagesFrom in Hk.
  rewrite list_lookup_fmap in Hk.
  destruct (seq 0 _ !! k) as [i|] eqn:Hi; [|discriminate].
  apply lookup_seq in Hi as [-> Hlt]. simpl in Hk. inversion Hk; subst. clear Hk.
  replace (n - 1 + 27) with (n + 26) in Hlt by lia.
  assert (0 ≤ (n + 26) / 27) by (apply Z.div_pos; lia).
  assert (27 * ((n + 26) / 27) ≤ n + 26) by (apply Z.mul_div_le; lia).
  split; [reflexivity|]. split; [lia|]. intros Hnext. lia.
Qed.

(** When the meter answers every request, all pages are fetched and each
    adds as many records as it asked for. *)
Lemma fetchPages_answered ps : ∀ m records,
  (∀ payload m0, ∃ result m1,
     commandResponse COMMAND.GLUCOSE_RESULT payload m0 = (Ok result, m1)) →
  ∃ records1 m1,
    fetchPages ps m records = (Ok records1, m1)
    ∧ length records1 = (length records + sum_list (Z.to_nat <$> (snd <$> ps)))%nat.
Proof.
  induction ps as [|[start count] ps IH]; intros m records Hans.
  - exists records, m. simpl. split; [reflexivity | lia].
  - cbn [fetchPages].
    destruct (Hans (pageRequest start count) m) as (result & m1 & ->).
    destruct (IH m1 (records ++ pageRecords (rsp_data result) (Z.to_nat count)) Hans)
      as (records1 & m2 & -> & Hlen).
    exists records1, m2. split; [reflexivity|].
    rewrite Hlen, length_app. unfold pageRecords.
    rewrite length_fmap, length_seq, !fmap_cons. simpl. lia.
Qed.

Lemma getRecords_pages n m :
  0 ≤ n → getRecords Meter commandResponse n m = fetchPages (pages n) m [].
Proof.
  intros Hn. unfold getRecords, pages.
  by apply (getRecordsFrom_pages n _ 1 m [] eq_refl); lia.
Qed.

Lemma pages_total n :
  0 ≤ n → sum_list (Z.to_nat <$> (snd <$> pages n)) = Z.to_nat n.
Proof.
  intros Hn. unfold pages.
  rewrite (pagesFrom_total n _ 1 eq_refl) by lia. f_equal. lia.
Qed.

Lemma getRecords_answered n m :
  0 ≤ n →
  (∀ payload m0, ∃ result m1,
     commandResponse COMMAND.GLUCOSE_RESULT payload m0 = (Ok result, m1)) →
  ∃ records m1,
    getRecords Meter commandResponse n m = (Ok records, m1)
    ∧ length records = Z.to_nat n.
Proof.
  intros Hn Hans.
  destruct (fetchPages_answered (pages n) m [] Hans) as (records & m1 & Hf & Hlen).
  exists records, m1. rewrite getRecords_pages, Hf by done. split; [reflexivity|].
  rewrite Hlen, pages_total by done. simpl. lia.
Qed.

(** A meter that holds the records [stored] and answers a request for
    [count] records from the 1-based index [start] on with their bytes:
    the pages from [s] on bring back the records from [s] on. *)
Lemma fetchPages_stored n stored :
  n < 65536 →
  length stored = Z.to_nat n →
  Forall wireRecord stored →
  (∀ start count m0,
     1 ≤ start → 1 ≤ count ≤ 27 → start + count - 1 ≤ n →
     ∃ result m1 rest,
       commandResponse COMMAND.GLUCOSE_RESULT
         [start / 256; start mod 256; count] m0 = (Ok result, m1)
       ∧ rsp_data result
         = concat (recordBytes <$>
                     take (Z.to_nat count) (drop (Z.to_nat (start - 1)) stored))
           ++ rest) →
  ∀ (j : nat) s m acc,
    Z.to_nat ((n - s + 27) / 27) = j →
    1 ≤ s → 0 ≤ n - s + 27 →
    ∃ m1, fetchPages (pagesFrom n s) m acc
          = (Ok (acc ++ drop (Z.to_nat (s - 1)) stored), m1).
Proof.
  intros Hsmall Hlen Hwire Hmeter.
  induction j as [|j IH]; intros s m acc Hj Hs Hbound.
  - assert (n < s) as Hlt.
    { destruct (Z.lt_ge_cases n s) as [?|Hge]; [done|].
      assert (1 ≤ (n - s + 27) / 27) by (apply Z.div_le_lower_bound; lia). lia. }
    rewrite pagesFrom_done by done. exists m. cbn [fetchPages].
    by rewrite drop_ge, app_nil_r by lia.
  - assert (s ≤ n) as Hle.
    { destruct (Z.lt_ge_cases n s) as [Hlt|?]; [|lia].
      assert ((n - s + 27) / 27 ≤ 0); [|lia].
      apply Z.lt_succ_r, Z.div_lt_upper_bound; lia. }
    rewrite pagesFrom_step by done. cbn [fetchPages].
    set (count := Z.min 27 (n - s + 1)).
    assert (1 ≤ count ≤ 27 ∧ s + count - 1 ≤ n) as [Hcount Hlast] by lia.
    rewrite pageRequest_explicit by lia.
    rewrite (Z.mod_small (s / 256))
      by (split; [apply Z.div_pos; lia | apply Z.div_lt_upper_bound; lia]).
    destruct (Hmeter s count m Hs Hcount Hlast) as (result & m1 & rest & -> & ->).
    set (chunk := take (Z.to_nat count) (drop (Z.to_nat (s - 1)) stored)).
    assert (length chunk = Z.to_nat count) as Hchunk
      by (unfold chunk; rewrite length_take, length_drop; lia).
    rewrite <- Hchunk, pageRecords_recordBytes
      by (unfold chunk; by apply Forall_take, Forall_drop).
    destruct (IH (s + 27) m1 (acc ++ chunk)) as (m2 & ->); [|lia|lia|].
    { replace (n - s + 27) with ((n - (s + 27) + 27) + 1 * 27) in Hj by lia.
      rewrite Z.div_add in Hj by lia.
      assert (0 ≤ (n - (s + 27) + 27) / 27) by (apply Z.div_pos; lia). lia. }
    exists m2. do 2 f_equal. rewrite <- app_assoc. f_equal.
    transitivity (chunk ++ drop (Z.to_nat count) (drop (Z.to_nat (s - 1)) stored));
      [|apply take_drop].
    f_equal. rewrite drop_drop.
    destruct (decide (count = 27)) as [E|E].
    + f_equal. lia.
    + by rewrite !drop_ge by lia.
Qed.

(** C6. For every record count [n >= 0], [getRecords] issues the
    glucose-result requests of [pages n], one after the other: start
    indices 1, 28, 55, ..., 27 records on every page except a possibly
    smaller last one, [n] records in all. The payload of each request is
    three bytes, the start index as a 16-bit value with the high byte
    first and then the count, which for a 16-bit [n] carry both without
    loss. Each response is decoded into as many records as were asked
    for, the record at position [i] read from the nine bytes at offset
    [9 * i]: two-digit year (2000 is added), month, day, hours, minutes,
    seconds, flags, and the value high byte first; the records are
    appended in request order. So a meter that holds [n] records and
    answers the request for [count] records from index [start] on with
    their bytes gets all of them read back, in their order. When the
    meter answers every request, whatever it sends, exactly [n] records
    are returned. *)
Theorem getRecords_fetches_every_record (n : Z) (m : Meter) :
  0 ≤ n →
  (∀ payload m0, ∃ result m1,
     commandResponse COMMAND.GLUCOSE_RESULT payload m0 = (Ok result, m1)) →
  getRecords Meter commandResponse n m = fetchPages (pages n) m []
  ∧ (∀ k start count, pages n !! k = Some (start, count) →
       start = 1 + 27 * Z.of_nat k
       ∧ 1 ≤ count ≤ 27
       ∧ ((S k < length (pages n))%nat → count = 27))
  ∧ sum_list (Z.to_nat <$> (snd <$> pages n)) = Z.to_nat n
  ∧ (∀ start count, (start, count) ∈ pages n →
       pageRequest start count = [(start / 256) mod 256; start mod 256; count]
       ∧ (n < 65536 →
          pageRequest start count = [start / 256; start mod 256; count]))
  ∧ (∀ data count, length (pageRecords data count) = count)
  ∧ (∀ data count i pre y mo d h mi s f vh vl post,
       (i < count)%nat →
       data = pre ++ [y; mo; d; h; mi; s; f; vh; vl] ++ post →
       length pre = (9 * i)%nat →
       is_byte vh → is_byte vl →
       pageRecords data count !! i
       = Some {| year := y + 2000; month := mo; day := d;
                 hours := h; minutes := mi; seconds := s;
                 flags := f; value := 256 * vh + vl;
                 jsDate := {| ts_year := y + 2000; ts_month := mo; ts_day := d;
                              ts_hours := h; ts_minutes := mi;
                              ts_seconds := s |} |})
  ∧ (∀ stored,
       n < 65536 →
       length stored = Z.to_nat n →
       Forall wireRecord stored →
       (∀ start count m0,
          1 ≤ start → 1 ≤ count ≤ 27 → start + count - 1 ≤ n →
          ∃ result m1 rest,
            commandResponse COMMAND.GLUCOSE_RESULT
              [start / 256; start mod 256; count] m0 = (Ok result, m1)
            ∧ rsp_data result
              = concat (recordBytes <$>
                          take (Z.to_nat count)
                               (drop (Z.to_nat (start - 1)) stored))
                ++ rest) →
       ∃ m1, getRecords Meter commandResponse n m = (Ok stored, m1))
  ∧ ∃ records m1,
      getRecords Meter commandResponse n m = (Ok records, m1)
      ∧ length records = Z.to_nat n.
Proof.
  intros Hn Hans.
  split; [by apply getRecords_pages|].
  split; [intros k start count; by apply pages_shape|].
  split; [by apply pages_total|].
  split.
  { intros start count Hin. apply list_elem_of_lookup in Hin as [k Hk].
    destruct (pages_shape _ _ _ _ Hn Hk) as (Hstart & Hcount & _).
    destruct (pages_lookup _ _ _ _ Hk) as (_ & Hmin & _).
    split; [apply pageRequest_explicit; lia|].
    intros Hsmall. rewrite pageRequest_explicit by lia.
    rewrite (Z.mod_small (start / 256)); [reflexivity|].
    split; [apply Z.div_pos; lia | apply Z.div_lt_upper_bound; lia]. }
  split; [apply pageRecords_length|].
  split; [|split; [|by apply getRecords_answered]].
  - intros data count i pre y mo d h mi s f vh vl post Hi -> Hpre Hvh Hvl.
    rewrite pageRecords_lookup, <- Hpre by done.
    by rewrite unpackRecord_nine.
  - intros stored Hsmall Hlen Hwire Hmeter.
    rewrite getRecords_pages by done. unfold pages.
    destruct (fetchPages_stored n stored Hsmall Hlen Hwire Hmeter _ 1 m []
                eq_refl ltac:(lia) ltac:(lia)) as (m1 & ->).
    by exists m1.
Qed.

(** The record count of the index query is a 16-bit value. *)
Lemma getNumberOfRecords_range m n m1 :
  getNumberOfRecords Meter commandResponse m = (Ok n, m1) → 0 ≤ n < 65536.
Proof.
  unfold getNumberOfRecords.
  destruct (commandResponse _ _ _) as [[result|msg] m0]; [|discriminate].
  intros H. inversion H; subst. unfold extractBEShort.
  change 0xFFFF with (Z.ones 16). rewrite Z.land_ones by lia.
  apply Z.mod_pos_bound. lia.
Qed.

(** X18. The fetch stage takes the record count from the answer to the
    index query, the first two bytes read as a 16-bit value with the
    high byte first, and then fetches the records from the meter as the
    index query left it: when every glucose-result request is answered
    the stage returns that count together with the records of
    [getRecords], exactly as many as the count says. *)
Lemma fetchData_answered m r m0 hi lo rest :
  commandResponse COMMAND.CURRENT_INDEX [] m = (Ok r, m0) →
  rsp_data r = hi :: lo :: rest →
  is_byte hi → is_byte lo →
  (∀ payload m', ∃ result m1,
     commandResponse COMMAND.GLUCOSE_RESULT payload m' = (Ok result, m1)) →
  ∃ records m1,
    fetchData Meter commandResponse m = (Ok (256 * hi + lo, records), m1)
    ∧ getRecords Meter commandResponse (256 * hi + lo) m0 = (Ok records, m1)
    ∧ length records = Z.to_nat (256 * hi + lo).
Proof.
  intros Hindex Hdata Hhi Hlo Hans.
  unfold fetchData, getNumberOfRecords. rewrite Hindex, Hdata.
  unfold extractBEShort, extractByte. cbn [lookup list_lookup default]. unfold id.
  rewrite big_endian_short by done.
  assert (0 ≤ 256 * hi + lo) as Hn by (unfold is_byte in *; lia).
  destruct (getRecords_answered (256 * hi + lo) m0 Hn Hans)
    as (records & m1 & Hrecords & Hlen).
  exists records, m1. by rewrite Hrecords.
Qed.

End FetchFacts.

(** ** Mapping raw records to upload records *)

(** A flag is a single bit of the flags byte. *)
Lemma hasFlag_testbit k v : 0 ≤ k → hasFlag (2 ^ k) v = Z.testbit v k.
Proof.
  intros Hk. unfold hasFlag.
  destruct (Z.testbit v k) eqn:Hbit.
  - destruct (decide _) as [_|Hz]; [reflexivity|].
    apply dec_stable in Hz.
    assert (Z.testbit (Z.land (2 ^ k) v) k = true) as Hone
      by (by rewrite Z.land_spec, Z.pow2_bits_true, Hbit).
    rewrite Hz, Z.bits_0 in Hone. discriminate.
  - destruct (decide _) as [Hnz|_]; [|reflexivity].
    destruct Hnz. apply Z.bits_inj'. intros m _.
    rewrite Z.land_spec, Z.bits_0, Z.pow2_bits_eqb by done.
    destruct (Z.eqb_spec k m) as [<-|_]; [by rewrite Hbit | reflexivity].
Qed.

Lemma flag_bits v :
  hasFlag FLAGS.CONTROL_SOLUTION v = Z.testbit v 0
  ∧ hasFlag FLAGS.LO v = Z.testbit v 2
  ∧ hasFlag FLAGS.HI v = Z.testbit v 3
  ∧ hasFlag FLAGS.KETONE v = Z.testbit v 6.
Proof.
  repeat split.
  - apply (hasFlag_testbit 0). lia.
  - apply (hasFlag_testbit 2). lia.
  - apply (hasFlag_testbit 3). lia.
  - apply (hasFlag_testbit 6). lia.
Qed.

(** The records that each pass emits: glucose readings in the first
    pass, ketone readings in the second; a control-solution test in
    neither. *)
Definition isControl (r : rawRecord) : bool :=
  hasFlag FLAGS.CONTROL_SOLUTION (flags r).

Definition isGlucose (r : rawRecord) : bool :=
  negb (hasFlag FLAGS.CONTROL_SOLUTION (flags r))
  && negb (hasFlag FLAGS.KETONE (flags r)).

Definition isKetone (r : rawRecord) : bool :=
  hasFlag FLAGS.KETONE (flags r)
  && negb (hasFlag FLAGS.CONTROL_SOLUTION (flags r)).

(** The records of a list with their position in it, counted from [i]. *)
Fixpoint indexFrom {A : Type} (i : nat) (l : list A) : list (nat * A) :=
  match l with
  | [] => []
  | x :: rest => (i, x) :: indexFrom (S i) rest
  end.

Lemma indexFrom_lower {A : Type} (l : list A) : ∀ i,
  Forall (λ p, (i ≤ p.1)%nat) (indexFrom i l).
Proof.
  induction l as [|x l IH]; intros i; simpl; constructor; [simpl; lia|].
  eapply Forall_impl; [apply IH|]. simpl. intros. lia.
Qed.

(** Filtering keeps the positions in increasing order. *)
Lemma filter_indexFrom_sorted {A : Type} (P : nat * A → Prop)
    `{∀ p, Decision (P p)} (l : list A) : ∀ i,
  StronglySorted lt ((filter P (indexFrom i l)).*1).
Proof.
  induction l as [|x l IH]; intros i; simpl; [constructor|].
  rewrite filter_cons. destruct (decide (P (i, x))); [|apply IH].
  rewrite fmap_cons. constructor; [apply IH|].
  apply Forall_fmap. apply Forall_forall. intros q Hq.
  apply list_elem_of_filter in Hq as [_ Hq].
  pose proof (indexFrom_lower l (S i)) as Hlow.
  rewrite Forall_forall in Hlow. specialize (Hlow q Hq). simpl in *. lia.
Qed.

Lemma elem_of_indexFrom {A : Type} (l : list A) : ∀ i j x,
  (j, x) ∈ indexFrom i l ↔ (i ≤ j)%nat ∧ l !! (j - i)%nat = Some x.
Proof.
  induction l as [|y l IH]; intros i j x; simpl.
  - split; [by intros ?%elem_of_nil | by intros [_ ?]].
  - rewrite elem_of_cons, IH. split.
    + intros [Heq | [Hle Hl]].
      * inversion Heq; subst. split; [lia|]. by rewrite Nat.sub_diag.
      * split; [lia|]. replace (j - i)%nat with (S (j - S i)) by lia. exact Hl.
    + intros [Hle Hl]. destruct (decide (j = i)) as [->|Hne].
      * left. rewrite Nat.sub_diag in Hl. simpl in Hl. by inversion Hl.
      * right. split; [lia|].
        replace (j - i)%nat with (S (j - S i)) in Hl by lia. exact Hl.
Qed.

(** The number of control-solution tests among the raw records. *)
Definition controlCount (raws : list rawRecord) : nat :=
  length (filter (λ r, Is_true (isControl r)) raws).

Section ProcessFacts.

Variable formatDeviceTime : timestamp → string.
Variable lookupUTC : timestamp → option jsval → utcInfo.

Local Abbreviation buildSMBG' := (buildSMBG formatDeviceTime lookupUTC).
Local Abbreviation buildBloodKetone' := (buildBloodKetone formatDeviceTime lookupUTC).
Local Abbreviation bgBody' := (bgBody formatDeviceTime lookupUTC).
Local Abbreviation ketoneBody' := (ketoneBody formatDeviceTime lookupUTC).
Local Abbreviation processed' := (processed formatDeviceTime lookupUTC).
Local Abbreviation processData' := (processData formatDeviceTime lookupUTC).

(** The upload record of a glucose reading and of a ketone reading, the
    index removed. *)
Definition smbgRecord (p : nat * rawRecord) : gmap string jsval :=
  delete "index" (buildSMBG' p.2 p.1).

Definition ketoneRecord (p : nat * rawRecord) : gmap string jsval :=
  delete "index" (buildBloodKetone' p.2 p.1).

Lemma forEachFrom_bgBody raws : ∀ i post,
  forEachFrom bgBody' raws i post
  = post ++ (smbgRecord <$> filter (λ p, Is_true (isGlucose p.2)) (indexFrom i raws)).
Proof.
  induction raws as [|r raws IH]; intros i post; simpl.
  - by rewrite app_nil_r.
  - rewrite IH. unfold bgBody at 1. fold (isGlucose r).
    destruct (isGlucose r) eqn:E.
    + rewrite filter_cons_True by (change (Is_true (isGlucose r)); rewrite E; exact I).
      by rewrite <- app_assoc.
    + rewrite filter_cons_False by (change (¬ Is_true (isGlucose r)); rewrite E; intros []).
      reflexivity.
Qed.

Lemma forEachFrom_ketoneBody raws : ∀ i post,
  forEachFrom ketoneBody' raws i post
  = post ++ (ketoneRecord <$> filter (λ p, Is_true (isKetone p.2)) (indexFrom i raws)).
Proof.
  induction raws as [|r raws IH]; intros i post; simpl.
  - by rewrite app_nil_r.
  - rewrite IH. unfold ketoneBody at 1.
    destruct (isKetone r) eqn:E.
    + rewrite filter_cons_True by (change (Is_true (isKetone r)); rewrite E; exact I).
      unfold isKetone in E.
      apply andb_true_iff in E as [-> E]. apply negb_true_iff in E as ->.
      cbn [negb]. rewrite fmap_cons, <- app_assoc. reflexivity.
    + rewrite filter_cons_False by (change (¬ Is_true (isKetone r)); rewrite E; intros []).
      unfold isKetone in E.
      by destruct (hasFlag FLAGS.KETONE (flags r)),
                  (hasFlag FLAGS.CONTROL_SOLUTION (flags r)).
Qed.

(** The upload set: the glucose records, then the ketone records. *)
Lemma processed_parts raws :
  processed' raws
  = (smbgRecord <$> filter (λ p, Is_true (isGlucose p.2)) (indexFrom 0 raws))
    ++ (ketoneRecord <$> filter (λ p, Is_true (isKetone p.2)) (indexFrom 0 raws)).
Proof.
  unfold processed, buildKetoneRecords, buildBGRecords, forEach.
  cbn [records post_records].
  by rewrite forEachFrom_bgBody, forEachFrom_ketoneBody.
Qed.

Ltac unfold_builder :=
  unfold smbgRecord, ketoneRecord, buildSMBG, buildBloodKetone, done,
    annotateEvent, fillInUTCInfo, set, with_deviceTime, with_units, with_value,
    makeSMBG, makeBloodKetone.

(** The fields of the upload record of a glucose reading. *)
Lemma smbgRecord_fields r i :
  smbgRecord (i, r) !! "type" = Some (VStr "smbg")
  ∧ smbgRecord (i, r) !! "value" = Some (number (bgValue r).1)
  ∧ smbgRecord (i, r) !! "units" = Some (VStr "mg/dL")
  ∧ smbgRecord (i, r) !! "annotations" = (λ a, VAnnotations [a]) <$> (bgValue r).2
  ∧ smbgRecord (i, r) !! "index" = None.
Proof.
  unfold_builder. cbn [fst snd].
  destruct (bgValue r) as [v [a|]]; cbn [fst snd fmap option_fmap option_map];
    repeat split; by simplify_map_eq.
Qed.

Lemma ketoneRecord_fields r i :
  ketoneRecord (i, r) !! "type" = Some (VStr "bloodKetone")
  ∧ ketoneRecord (i, r) !! "value" = Some (VNum (ketoneValue r).1)
  ∧ ketoneRecord (i, r) !! "units" = Some (VStr "mmol/L")
  ∧ ketoneRecord (i, r) !! "annotations" = (λ a, VAnnotations [a]) <$> (ketoneValue r).2
  ∧ ketoneRecord (i, r) !! "index" = None.
Proof.
  unfold_builder. cbn [fst snd].
  destruct (ketoneValue r) as [v [a|]]; cbn [fst snd fmap option_fmap option_map];
    repeat split; by simplify_map_eq.
Qed.

(** Before [delete postRecord.index] the record does carry its index. *)
Lemma buildSMBG_index r i :
  buildSMBG' r i !! "index" = Some (number (Z.of_nat i)).
Proof.
  unfold_builder. destruct (bgValue r) as [v [a|]]; by simplify_map_eq.
Qed.

Lemma buildBloodKetone_index r i :
  buildBloodKetone' r i !! "index" = Some (number (Z.of_nat i)).
Proof.
  unfold_builder. destruct (ketoneValue r) as [v [a|]]; by simplify_map_eq.
Qed.

(** What [processData] answers, in terms of the upload set. *)
Lemma processData_processed data :
  processData' data
  = if decide (length (processed' (records data)) = 0%nat)
    then Throw "Device has no records to upload"
    else Ok {| records := records data; post_records := processed' (records data) |}.
Proof. reflexivity. Qed.

(** C7. For a glucose reading the out-of-range substitution goes by the
    first flag that is set, HI before LO: with HI set (LO set or not) the
    value is 601 and the record is annotated out of range, high,
    threshold 600; otherwise with LO set the value is 19 and the
    annotation is out of range, low, threshold 20; otherwise the raw
    value is kept and there is no annotation. *)
Theorem glucose_out_of_range_substitution (record : rawRecord) (index : nat)
    (post : list (gmap string jsval)) :
  isGlucose record = true →
  ∃ postRecord,
    bgBody' record index post = post ++ [postRecord]
    ∧ (hasFlag FLAGS.HI (flags record) = true →
       postRecord !! "value" = Some (number 601)
       ∧ postRecord !! "annotations"
         = Some (VAnnotations [ {| ann_code := "bg/out-of-range"; ann_value := "high";
                                   ann_threshold := QArith_base.Qmake 600 1 |} ]))
    ∧ (hasFlag FLAGS.HI (flags record) = false →
       hasFlag FLAGS.LO (flags record) = true →
       postRecord !! "value" = Some (number 19)
       ∧ postRecord !! "annotations"
         = Some (VAnnotations [ {| ann_code := "bg/out-of-range"; ann_value := "low";
                                   ann_threshold := QArith_base.Qmake 20 1 |} ]))
    ∧ (hasFlag FLAGS.HI (flags record) = false →
       hasFlag FLAGS.LO (flags record) = false →
       postRecord !! "value" = Some (number (value record))
       ∧ postRecord !! "annotations" = None).
Proof.
  intros Hg. exists (smbgRecord (index, record)). split.
  - unfold bgBody. fold (isGlucose record). by rewrite Hg.
  - destruct (smbgRecord_fields record index) as (_ & Hv & _ & Ha & _).
    rewrite Hv, Ha. unfold bgValue.
    repeat split; intros; repeat match goal with H : hasFlag _ _ = _ |- _ => rewrite H end;
      reflexivity.
Qed.

(** C8. Of [N] raw records with [K] control-solution tests among them,
    processing leaves [N - K] upload records: a record without the
    control-solution flag is emitted once, by the ketone pass when its
    KETONE flag is set and by the glucose pass otherwise, and a
    control-solution test is emitted by neither pass whatever its KETONE
    flag is. *)
Theorem control_solution_tests_are_dropped (raws : list rawRecord) :
  length (processed' raws) = (length raws - controlCount raws)%nat
  ∧ (controlCount raws ≤ length raws)%nat
  ∧ ∀ (r : rawRecord) (i : nat) (post : list (gmap string jsval)),
      (isControl r = true →
         bgBody' r i post = post ∧ ketoneBody' r i post = post)
      ∧ (isControl r = false → hasFlag FLAGS.KETONE (flags r) = true →
         bgBody' r i post = post
         ∧ ∃ p, ketoneBody' r i post = post ++ [p]
                ∧ p !! "type" = Some (VStr "bloodKetone"))
      ∧ (isControl r = false → hasFlag FLAGS.KETONE (flags r) = false →
         ketoneBody' r i post = post
         ∧ ∃ p, bgBody' r i post = post ++ [p]
                ∧ p !! "type" = Some (VStr "smbg")).
Proof.
  split; [|split].
  - rewrite processed_parts, length_app, !length_fmap. unfold controlCount.
    generalize 0%nat. induction raws as [|r raws IH]; intros i; [reflexivity|].
    cbn [indexFrom length]. rewrite !filter_cons.
    specialize (IH (S i)).
    pose proof (length_filter (λ r, Is_true (isControl r)) raws) as Hle.
    unfold isGlucose, isKetone, isControl in *. cbn [snd].
    destruct (hasFlag FLAGS.CONTROL_SOLUTION (flags r)),
             (hasFlag FLAGS.KETONE (flags r));
      repeat (destruct (decide _) as [?|?]; simpl in *; try tauto); lia.
  - apply length_filter.
  - intros r i post. unfold isControl, bgBody, ketoneBody.
    split; [|split].
    + intros ->. cbn [negb andb].
      by destruct (hasFlag FLAGS.KETONE (flags r)).
    + intros -> ->. cbn [negb andb]. split; [reflexivity|].
      eexists. split; [reflexivity|]. apply (ketoneRecord_fields r i).
    + intros -> ->. cbn [negb andb]. split; [reflexivity|].
      eexists. split; [reflexivity|]. apply (smbgRecord_fields r i).
Qed.

(** C9. No record of the upload set carries the index it was given
    while it was built: the field is deleted before the record is
    pushed, in the glucose pass and in the ketone pass alike. *)
Theorem upload_records_carry_no_index (raws : list rawRecord) :
  Forall (λ p : gmap string jsval, p !! "index" = None) (processed' raws)
  ∧ ∀ old, match processData' {| records := raws; post_records := old |} with
           | Ok data => Forall (λ p : gmap string jsval, p !! "index" = None)
                          (post_records data)
           | Throw _ => True
           end.
Proof.
  assert (Forall (λ p : gmap string jsval, p !! "index" = None) (processed' raws)) as H.
  { rewrite processed_parts. apply Forall_app. split; apply Forall_fmap, Forall_forall.
    - intros [i r] _. apply (smbgRecord_fields r i).
    - intros [i r] _. apply (ketoneRecord_fields r i). }
  split; [exact H|].
  intros old. rewrite processData_processed. by destruct (decide _).
Qed.

(** C10. The upload set is ordered by record type, not by fetch order:
    first the records of all glucose readings, each before the ones
    fetched after it, then the records of all ketone readings, ordered
    likewise; every reading that is not a control-solution test is in
    exactly one of the two parts, at its position in the fetch. *)
Theorem upload_set_is_glucose_then_ketone (raws : list rawRecord) :
  let glucose := filter (λ p, Is_true (isGlucose p.2)) (indexFrom 0 raws) in
  let ketone := filter (λ p, Is_true (isKetone p.2)) (indexFrom 0 raws) in
  processed' raws = (smbgRecord <$> glucose) ++ (ketoneRecord <$> ketone)
  ∧ StronglySorted lt glucose.*1
  ∧ StronglySorted lt ketone.*1
  ∧ (∀ i r, (i, r) ∈ glucose ↔ raws !! i = Some r ∧ isGlucose r = true)
  ∧ (∀ i r, (i, r) ∈ ketone ↔ raws !! i = Some r ∧ isKetone r = true).
Proof.
  intros glucose ketone.
  split; [apply processed_parts|].
  split; [apply filter_indexFrom_sorted|].
  split; [apply filter_indexFrom_sorted|].
  split; intros i r; unfold glucose, ketone;
    rewrite list_elem_of_filter, elem_of_indexFrom, Nat.sub_0_r; cbn [snd];
    rewrite Is_true_true; split; intros; destruct_and?; repeat split; (done || lia).
Qed.

End ProcessFacts.

(** * Further properties of the driver *)

(** ** The reassembly loop, report by report *)

Lemma reportPayload_empty : reportPayload [] = [].
Proof. reflexivity. Qed.

(** The payload of a report is what follows the length byte, cut at the
    declared length. *)
Lemma reportPayload_cons len rest :
  0 ≤ len → reportPayload (len :: rest) = take (Z.to_nat len) rest.
Proof.
  intros Hlen. unfold reportPayload, slice, extractByte.
  cbn [lookup list_lookup default length]. unfold id.
  destruct (Z.ltb_spec (len + 1) 0) as [?|_]; [lia|].
  destruct (Z.le_gt_cases (len + 1) (Z.of_nat (S (length rest)))) as [Hle|Hgt].
  - rewrite Z.min_l by lia.
    replace (Z.to_nat (len + 1)) with (S (Z.to_nat len)) by lia.
    reflexivity.
  - rewrite Z.min_r by lia. rewrite Nat2Z.id. cbn [take drop].
    rewrite !take_ge by lia. reflexivity.
Qed.

(** What a report adds to the buffer: its payload once the start byte
    has been seen, in this report or before, and nothing otherwise. *)
Definition kept (found : bool) (result : list Z) : list Z :=
  if found || bool_decide (ASCII_CONTROL.STX ∈ reportPayload result)
  then reportPayload result else [].

Lemma readReport_state st result st' :
  readReport st result = Reading st' ∨ readReport st result = Complete st' →
  raw st' = raw st ++ kept (foundSTX st) result
  ∧ foundSTX st'
    = foundSTX st || bool_decide (ASCII_CONTROL.STX ∈ reportPayload result).
Proof.
  unfold readReport, kept.
  destruct (decide (0 < length result)%nat) as [Hpos|Hzero].
  - fold (reportPayload result).
    destruct (foundSTX st) eqn:Hf; cbn [orb].
    + destruct (decide _) as [_|_].
      * destruct (extractHeader _); [|intros [?|?]; discriminate].
        destruct (_ && _); intros [H|H]; inversion H; subst; by cbn.
      * destruct (_ && _); intros [H|H]; inversion H; subst; by cbn.
    + destruct (bool_decide (ASCII_CONTROL.STX ∈ reportPayload result)) eqn:Hs.
      * destruct (decide _) as [_|_].
        -- destruct (extractHeader _); [|intros [?|?]; discriminate].
           destruct (_ && _); intros [H|H]; inversion H; subst; by cbn.
        -- destruct (_ && _); intros [H|H]; inversion H; subst; by cbn.
      * intros [H|H]; inversion H; subst. by rewrite app_nil_r, Hf.
  - assert (result = []) as -> by (destruct result; [done | simpl in Hzero; lia]).
    intros [H|H]; inversion H; subst.
    rewrite reportPayload_empty, orb_false_r.
    split; [|reflexivity]. destruct (foundSTX st'); by rewrite app_nil_r.
Qed.

(** When an iteration sets [foundETX], the report at hand carries the
    end byte and the buffer has reached the expected length. *)
Lemma readReport_complete st result st' :
  readReport st result = Complete st' →
  foundSTX st' = true
  ∧ ASCII_CONTROL.ETX ∈ reportPayload result
  ∧ raw st' = raw st ++ reportPayload result
  ∧ packetSize st' + 6 ≤ Z.of_nat (length (raw st')).
Proof.
  unfold readReport.
  destruct (decide (0 < length result)%nat) as [_|_]; [|discriminate].
  fold (reportPayload result).
  destruct (if foundSTX st then true else _); [|discriminate].
  assert (∀ ps,
    (if bool_decide (ASCII_CONTROL.ETX ∈ reportPayload result)
        && bool_decide (ps + Z.of_nat HEADER_SIZE
                        ≤ Z.of_nat (length (raw st ++ reportPayload result)))
     then Complete {| raw := raw st ++ reportPayload result; foundSTX := true;
                      packetSize := ps |}
     else Reading {| raw := raw st ++ reportPayload result; foundSTX := true;
                     packetSize := ps |}) = Complete st' →
    foundSTX st' = true
    ∧ ASCII_CONTROL.ETX ∈ reportPayload result
    ∧ raw st' = raw st ++ reportPayload result
    ∧ packetSize st' + 6 ≤ Z.of_nat (length (raw st'))) as Hcase.
  { intros ps.
    destruct (bool_decide (_ ∈ _)) eqn:He; [|discriminate].
    destruct (bool_decide (_ ≤ _)) eqn:Hl; [|discriminate].
    intros H. inversion H; subst. cbn.
    apply bool_decide_eq_true_1 in He, Hl. unfold HEADER_SIZE in Hl.
    repeat split; (done || lia). }
  destruct (decide _) as [_|_]; [|apply Hcase].
  destruct (extractHeader _); [apply Hcase | discriminate].
Qed.

(** The payloads a run of reports adds to the buffer. *)
Fixpoint keptPayloads (found : bool) (reports : list (list Z)) : list Z :=
  match reports with
  | [] => []
  | result :: rest =>
      kept found result
      ++ keptPayloads
           (found || bool_decide (ASCII_CONTROL.STX ∈ reportPayload result)) rest
  end.

(** The reports from the first one on whose payload carries the start
    byte. *)
Fixpoint fromStart (reports : list (list Z)) : list (list Z) :=
  match reports with
  | [] => []
  | result :: rest =>
      if bool_decide (ASCII_CONTROL.STX ∈ reportPayload result)
      then reports else fromStart rest
  end.

Lemma keptPayloads_started reports :
  keptPayloads true reports = concat (reportPayload <$> reports).
Proof.
  induction reports as [|r reports IH]; [reflexivity|].
  cbn [keptPayloads orb fmap list_fmap concat]. unfold kept. cbn [orb].
  by rewrite IH.
Qed.

Lemma keptPayloads_fromStart reports :
  keptPayloads false reports = concat (reportPayload <$> fromStart reports).
Proof.
  induction reports as [|r reports IH]; [reflexivity|].
  cbn [keptPayloads fromStart orb]. unfold kept. cbn [orb].
  destruct (bool_decide _).
  - rewrite keptPayloads_started. reflexivity.
  - by rewrite IH.
Qed.

Lemma readReports_app l1 : ∀ l2 st,
  readReports (l1 ++ l2) st
  = match readReports l1 st with
    | Reading st' => readReports l2 st'
    | out => out
    end.
Proof.
  induction l1 as [|r l1 IH]; intros l2 st; [reflexivity|].
  cbn [app readReports]. destruct (readReport st r); [apply IH | done | done].
Qed.

Lemma readReports_reading reports : ∀ st st',
  readReports reports st = Reading st' →
  raw st' = raw st ++ keptPayloads (foundSTX st) reports
  ∧ foundSTX st' = foundSTX st || bool_decide (fromStart reports ≠ []).
Proof.
  induction reports as [|r reports IH]; intros st st'; cbn [readReports].
  - intros H. inversion H; subst. cbn. by rewrite app_nil_r, orb_false_r.
  - destruct (readReport st r) as [st1|st1|msg] eqn:E; [|discriminate|discriminate].
    intros H. destruct (readReport_state st r st1 (or_introl E)) as [Hraw Hfound].
    destruct (IH st1 st' H) as [Hraw' Hfound'].
    cbn [keptPayloads fromStart]. rewrite <- Hfound.
    split; [by rewrite Hraw', Hraw, <- app_assoc|].
    rewrite Hfound', Hfound.
    destruct (foundSTX st); [reflexivity|]. cbn [orb].
    destruct (bool_decide (ASCII_CONTROL.STX ∈ reportPayload r)); [|reflexivity].
    cbn [orb]. symmetry. by apply bool_decide_eq_true_2.
Qed.

(** The report at which the loop is left, if it is left by completion. *)
Lemma readReports_complete reports : ∀ st st',
  readReports reports st = Complete st' →
  ∃ before result after st1,
    reports = before ++ result :: after
    ∧ readReports before st = Reading st1
    ∧ readReport st1 result = Complete st'.
Proof.
  induction reports as [|r reports IH]; intros st st'; cbn [readReports];
    [discriminate|].
  destruct (readReport st r) as [st1|st1|msg] eqn:E; [| |discriminate].
  - intros H. destruct (IH st1 st' H) as (before & result & after & st2 & -> & Hb & Hr).
    exists (r :: before), result, after, st2. split; [reflexivity|].
    split; [|exact Hr]. cbn [readReports]. by rewrite E.
  - intros H. inversion H; subst.
    by exists [], r, reports, st.
Qed.

Lemma readReport_payload st r1 r2 :
  r1 ≠ [] → r2 ≠ [] → reportPayload r1 = reportPayload r2 →
  readReport st r1 = readReport st r2.
Proof.
  intros H1 H2 Hp. unfold readReport.
  destruct (decide (0 < length r1)%nat) as [_|Hn];
    [|destruct r1; [done | simpl in Hn; lia]].
  destruct (decide (0 < length r2)%nat) as [_|Hn];
    [|destruct r2; [done | simpl in Hn; lia]].
  fold (reportPayload r1). fold (reportPayload r2). by rewrite Hp.
Qed.

(** X1. A report is read up to the length its first byte declares:
    whatever follows the declared length (the padding of a fixed-size
    HID report) is ignored, even when it holds start or end bytes, and a
    report shorter than its declared length is read to its end. *)
Theorem report_is_read_up_to_its_declared_length
    (st : readState) (len : Z) (rest : list Z) :
  0 ≤ len →
  readReport st (len :: rest) = readReport st (reportOf (take (Z.to_nat len) rest)).
Proof.
  intros Hlen. apply readReport_payload; [done | done |].
  by rewrite reportPayload_cons, reportPayload_reportOf.
Qed.

Lemma keptPayloads_app l1 : ∀ l2 found,
  keptPayloads found (l1 ++ l2)
  = keptPayloads found l1
    ++ keptPayloads (found || bool_decide (fromStart l1 ≠ [])) l2.
Proof.
  induction l1 as [|r l1 IH]; intros l2 found.
  - cbn. by rewrite orb_false_r.
  - cbn [app keptPayloads fromStart]. rewrite IH, <- app_assoc. do 3 f_equal.
    destruct found; [reflexivity|]. cbn [orb].
    destruct (bool_decide (ASCII_CONTROL.STX ∈ reportPayload r)); [|reflexivity].
    cbn [orb]. symmetry. by apply bool_decide_eq_true_2.
Qed.

Lemma readReports_complete_raw reports st' :
  readReports reports initialRead = Complete st' →
  ∃ before result after,
    reports = before ++ result :: after
    ∧ raw st' = concat (reportPayload <$> fromStart (before ++ [result]))
    ∧ foundSTX st' = true
    ∧ ASCII_CONTROL.ETX ∈ reportPayload result
    ∧ raw st' = keptPayloads false before ++ reportPayload result
    ∧ packetSize st' + 6 ≤ Z.of_nat (length (raw st')).
Proof.
  intros H.
  destruct (readReports_complete _ _ _ H) as (before & result & after & st1 & -> & Hb & Hr).
  exists before, result, after. split; [reflexivity|].
  destruct (readReports_reading _ _ _ Hb) as [Hraw1 Hfound1].
  destruct (readReport_state st1 result st' (or_intror Hr)) as [Hraw Hfound].
  destruct (readReport_complete _ _ _ Hr) as (Hf & Hetx & Hraw' & Hlen).
  cbn [raw foundSTX initialRead app orb] in Hraw1, Hfound1.
  split; [|repeat split; try done; by rewrite Hraw', Hraw1].
  rewrite <- keptPayloads_fromStart, keptPayloads_app.
  cbn [keptPayloads orb]. rewrite app_nil_r, Hraw, Hraw1, Hfound1. reflexivity.
Qed.

(** X2. The buffer of the loop is the concatenation of the payloads of
    the reports read, from the first report on whose payload carries the
    start byte: reports before it are discarded, every report after it
    is appended whole, and so is the starting report, bytes in front of
    its start byte included. *)
Theorem buffer_is_the_payloads_from_the_start_byte (reports : list (list Z)) :
  (∀ st, readReports reports initialRead = Reading st →
     raw st = concat (reportPayload <$> fromStart reports)
     ∧ foundSTX st = bool_decide (fromStart reports ≠ []))
  ∧ (∀ st, readReports reports initialRead = Complete st →
       ∃ before result after,
         reports = before ++ result :: after
         ∧ raw st = concat (reportPayload <$> fromStart (before ++ [result]))).
Proof.
  split; intros st H.
  - destruct (readReports_reading _ _ _ H) as [Hraw Hfound].
    cbn [raw foundSTX initialRead app orb] in Hraw, Hfound.
    by rewrite Hraw, keptPayloads_fromStart.
  - destruct (readReports_complete_raw _ _ H) as (before & result & after & ? & ? & _).
    by exists before, result, after.
Qed.

Lemma fromStart_has_start reports :
  fromStart reports ≠ [] →
  ASCII_CONTROL.STX ∈ concat (reportPayload <$> fromStart reports).
Proof.
  induction reports as [|r reports IH]; [done|]. cbn [fromStart].
  destruct (bool_decide (ASCII_CONTROL.STX ∈ reportPayload r)) eqn:E; [|exact IH].
  intros _. apply bool_decide_eq_true_1 in E.
  cbn [fmap list_fmap concat]. apply elem_of_app. by left.
Qed.

(** X3. When the loop is left, the buffer holds a start byte and an end
    byte and has reached the expected length, so it is never empty:
    [commandResponse] never returns its initial empty message. *)
Theorem completed_buffer_is_never_empty
    (calcCRC_A : list Z → nat → Z) (reports : list (list Z)) :
  (∀ st, readReports reports initialRead = Complete st →
     ASCII_CONTROL.STX ∈ raw st
     ∧ ASCII_CONTROL.ETX ∈ raw st
     ∧ packetSize st + 6 ≤ Z.of_nat (length (raw st))
     ∧ raw st ≠ [])
  ∧ commandResponseOn calcCRC_A reports ≠ Returned None.
Proof.
  assert (∀ st, readReports reports initialRead = Complete st →
     ASCII_CONTROL.STX ∈ raw st
     ∧ ASCII_CONTROL.ETX ∈ raw st
     ∧ packetSize st + 6 ≤ Z.of_nat (length (raw st))
     ∧ raw st ≠ []) as Hdone.
  { intros st H.
    destruct (readReports_complete_raw _ _ H)
      as (before & result & after & _ & Hraw & _ & Hetx & Hraw' & Hlen).
    assert (ASCII_CONTROL.ETX ∈ raw st) as He
      by (rewrite Hraw'; apply elem_of_app; by right).
    repeat split; try done.
    - rewrite Hraw. apply fromStart_has_start.
      intros Hnil. rewrite Hraw, Hnil in He. by apply elem_of_nil in He.
    - intros Hnil. rewrite Hnil in He. by apply elem_of_nil in He. }
  split; [exact Hdone|].
  unfold commandResponseOn.
  destruct (readReports reports initialRead) as [st|st|msg] eqn:E; [done| |done].
  destruct (Hdone st eq_refl) as (_ & _ & _ & Hne).
  unfold checkMessage.
  destruct (decide (0 < length (raw st))%nat) as [_|Hn].
  - destruct (extractPacketIntoMessages calcCRC_A (raw st)); [|done].
    by destruct (decide _).
  - destruct (raw st); [done | simpl in Hn; lia].
Qed.

Lemma getName_known table value :
  getName table value ≠ "unknown" → (value, getName table value) ∈ table.
Proof.
  induction table as [|[v name] table IH]; cbn [getName]; [done|].
  destruct (decide (v = value)) as [->|_]; intros H.
  - apply elem_of_cons. by left.
  - apply elem_of_cons. right. by apply IH.
Qed.

Lemma extractPacketIntoMessages_throws calcCRC_A bytes msg :
  extractPacketIntoMessages calcCRC_A bytes = Throw msg →
  msg = "Header not found" ∨ msg = "Checksum mismatch".
Proof.
  unfold extractPacketIntoMessages.
  destruct (extractHeader bytes) as [f|m] eqn:Eh.
  - destruct (decide _) as [_|_]; [|discriminate].
    unfold verifyChecksum. destruct (decide _) as [_|_]; [|discriminate].
    intros H. inversion H. by right.
  - intros H. inversion H; subst. left. by apply extractHeader_throws in Eh.
Qed.

(** X4. The errors of [commandResponse] once the command is sent: the
    header error, the checksum error, or the name of one of the five
    entries of the [ERROR] table, and then a packet has been reassembled
    and decoded whose command is the token of that entry. *)
Theorem commandResponse_error_taxonomy
    (calcCRC_A : list Z → nat → Z) (reports : list (list Z)) (msg : string) :
  commandResponseOn calcCRC_A reports = Raised msg →
  msg = "Header not found"
  ∨ msg = "Checksum mismatch"
  ∨ ∃ st r, readReports reports initialRead = Complete st
            ∧ extractPacketIntoMessages calcCRC_A (raw st) = Ok r
            ∧ (rsp_command r, msg) ∈ ERROR.
Proof.
  unfold commandResponseOn.
  destruct (readReports reports initialRead) as [st|st|m] eqn:E; [discriminate| |].
  - unfold checkMessage.
    destruct (decide (0 < length (raw st))%nat) as [_|_].
    + destruct (extractPacketIntoMessages calcCRC_A (raw st)) as [r|m] eqn:Er.
      * destruct (decide _) as [Hknown|_]; [|discriminate].
        intros [= <-]. right. right.
        exists st, r. split; [reflexivity|]. split; [exact Er|].
        exact (getName_known ERROR (rsp_command r) Hknown).
      * intros H. inversion H; subst.
        destruct (extractPacketIntoMessages_throws _ _ _ Er); auto.
    + destruct (decide _) as [Hne|_]; [by destruct Hne | discriminate].
  - intros H. inversion H; subst. left. by apply readReports_failure in E.
Qed.

Lemma reportPayload_reports (fragments : list (list Z)) :
  reportPayload <$> (reportOf <$> fragments) = fragments.
Proof.
  rewrite <- list_fmap_compose. rewrite <- (list_fmap_id fragments) at 2.
  apply list_fmap_ext. intros _ f _. apply reportPayload_reportOf.
Qed.

Lemma keptPayloads_length reports : ∀ found,
  (length (keptPayloads found reports)
   ≤ length (concat (reportPayload <$> reports)))%nat.
Proof.
  induction reports as [|r reports IH]; intros found; [reflexivity|].
  cbn [keptPayloads fmap list_fmap concat]. rewrite !length_app.
  specialize (IH (found || bool_decide (ASCII_CONTROL.STX ∈ reportPayload r))).
  unfold kept. destruct (_ || _); simpl; lia.
Qed.

Lemma concat_take_shorter (fragments : list (list Z)) : ∀ k,
  Forall (λ f, f ≠ []) fragments →
  (k < length fragments)%nat →
  (length (concat (take k fragments)) < length (concat fragments))%nat.
Proof.
  induction fragments as [|f fragments IH]; intros k Hne Hk; [simpl in Hk; lia|].
  apply Forall_cons in Hne as [Hf Hne].
  destruct k as [|k]; cbn [take concat]; rewrite ?length_app.
  - destruct f; [done | simpl; lia].
  - simpl in Hk. specialize (IH k Hne ltac:(lia)). lia.
Qed.

(** X5. A whole packet (magic in place, length equal to size + 6, STX
    first, ETX last) cut into non-empty fragments, one per report, with
    one report ending exactly after the sixth byte, is reassembled into
    exactly that packet, and the loop is left at the last report, not
    before. *)
Theorem fragmented_packet_is_reassembled_at_its_last_report
    (packet : list Z) (fields : headerFields) (fragments : list (list Z)) :
  extractHeader packet = Ok fields →
  Z.of_nat (length packet) = hdr_size fields + 6 →
  head packet = Some ASCII_CONTROL.STX →
  last packet = Some ASCII_CONTROL.ETX →
  concat fragments = packet →
  Forall (λ f, f ≠ []) fragments →
  (∃ k, length (concat (take k fragments)) = 6%nat) →
  readReports (reportOf <$> fragments) initialRead
  = Complete {| raw := packet; foundSTX := true; packetSize := hdr_size fields |}
  ∧ ∀ k, (k < length fragments)%nat →
      ∃ st, readReports (reportOf <$> take k fragments) initialRead = Reading st.
Proof.
  intros Hh Hlen Hfirst Hlast Hcat Hne Hboundary.
  pose proof (reassembly_with_boundary_after_header packet fields Hh Hlen Hfirst Hlast
                fragments Hcat Hne Hboundary) as Hfull.
  split; [exact Hfull|].
  intros k Hk.
  rewrite <- (take_drop k fragments), fmap_app, readReports_app in Hfull.
  destruct (readReports (reportOf <$> take k fragments) initialRead)
    as [st|st|msg] eqn:E; [by exists st | exfalso | discriminate].
  inversion Hfull as [Hst].
  destruct (readReports_complete_raw _ _ E)
    as (before & result & after & Hsplit & _ & _ & _ & Hraw & _).
  assert (length (raw st) ≤ length (concat (take k fragments)))%nat as Hshort.
  { rewrite <- (reportPayload_reports (take k fragments)), Hsplit.
    rewrite Hraw, fmap_app, concat_app, fmap_cons, !length_app.
    pose proof (keptPayloads_length before false). cbn [concat].
    rewrite length_app. lia. }
  pose proof (concat_take_shorter fragments k Hne Hk) as Hlt.
  rewrite Hcat in Hlt. rewrite Hst in Hshort. cbn [raw] in Hshort. lia.
Qed.

(** ** A framed reply, from the transport to the caller *)

Section ExchangeFacts.

Variable calcCRC_A : list Z → nat → Z.
Hypothesis calcCRC_A_range : ∀ bytes size, 0 ≤ calcCRC_A bytes size < 65536.
Hypothesis calcCRC_A_prefix :
  ∀ bytes rest, calcCRC_A (bytes ++ rest) (length bytes) = calcCRC_A bytes (length bytes).

(** The checksum a packet carries. *)
Definition packetChecksum (command : string) (payload : list Z) : Z :=
  calcCRC_A (covered command payload) (length (covered command payload)).

Lemma covered_length command payload :
  String.length command = 4%nat →
  length (covered command payload) = (7 + length payload + 7 - 3)%nat.
Proof.
  intros Hcmd. unfold covered.
  rewrite !length_app, !codes_length, Hcmd. simpl. lia.
Qed.

(** X6. The wire layout of a packet built for a 4-character command and
    a payload of bytes: length byte, STX, the magic, the size byte
    (7 + payload length), the command, the payload, the checksum high
    byte first, ETX; the checksum is the one of the bytes from STX to
    the payload followed by ETX, and the packet is 14 bytes longer than
    its payload. *)
Theorem buildPacket_wire_layout (command : string) (payload : list Z) :
  String.length command = 4%nat →
  Forall is_byte payload →
  buildPacket calcCRC_A command payload
  = [Z.of_nat (7 + length payload + 7) mod 256; ASCII_CONTROL.STX]
    ++ codes COMMAND.HEADER
    ++ [Z.of_nat (7 + length payload) mod 256]
    ++ codes command ++ payload
    ++ [Z.land (Z.shiftr (packetChecksum command payload) 8) 255 mod 256;
        Z.land (packetChecksum command payload) 255 mod 256;
        ASCII_CONTROL.ETX]
  ∧ length (buildPacket calcCRC_A command payload) = (14 + length payload)%nat.
Proof.
  intros Hcmd Hpay.
  assert (buildPacket calcCRC_A command payload
          = frame command payload (packetChecksum command payload)) as ->.
  { rewrite buildPacket_frame by done. unfold packetChecksum.
    by rewrite <- (covered_length command payload Hcmd), calcCRC_A_prefix. }
  split; [reflexivity|].
  unfold frame. rewrite !length_app, !codes_length, Hcmd. simpl. lia.
Qed.

(** What the reader finds in a packet that [buildPacket] has built. *)
Lemma built_packet_decodes command payload :
  String.length command = 4%nat →
  Forall is_byte payload →
  (7 + length payload ≤ 255)%nat →
  let packet := drop 1 (buildPacket calcCRC_A command payload) in
  extractHeader packet
  = Ok {| hdr_header := COMMAND.HEADER; hdr_size := Z.of_nat (7 + length payload) |}
  ∧ Z.of_nat (length packet) = Z.of_nat (7 + length payload) + 6
  ∧ head packet = Some ASCII_CONTROL.STX
  ∧ last packet = Some ASCII_CONTROL.ETX
  ∧ extractPacketIntoMessages calcCRC_A packet
    = Ok {| rsp_command := command; rsp_data := payload;
            rsp_crc := packetChecksum command payload |}.
Proof.
  intros Hcmd Hpay Hlen packet. unfold packet.
  rewrite buildPacket_frame by done.
  rewrite <- (covered_length command payload Hcmd), calcCRC_A_prefix.
  fold (packetChecksum command payload).
  set (crc := packetChecksum command payload).
  assert (0 ≤ crc < 65536) as Hcrc by apply calcCRC_A_range.
  unfold frame. cbn [app drop].
  rewrite (Z.mod_small (Z.of_nat (7 + length payload))) by lia.
  set (hi := Z.land (Z.shiftr crc 8) 255 mod 256).
  set (lo := Z.land crc 255 mod 256).
  set (bytes := ASCII_CONTROL.STX :: _).
  assert (bytes = [ASCII_CONTROL.STX] ++ codes COMMAND.HEADER
                  ++ [Z.of_nat (7 + length payload)] ++ codes command ++ payload
                  ++ [hi; lo; ASCII_CONTROL.ETX]) as Hbytes by reflexivity.
  assert (bytes = ([ASCII_CONTROL.STX] ++ codes COMMAND.HEADER
                  ++ [Z.of_nat (7 + length payload)] ++ codes command ++ payload)
                  ++ [hi; lo; ASCII_CONTROL.ETX]) as Hbytes'
    by (rewrite Hbytes; by rewrite <- !app_assoc).
  assert (verifyChecksum calcCRC_A bytes crc = Ok tt) as Hverify.
  { unfold verifyChecksum. rewrite Hbytes', splice_checksum.
    match goal with |- context [decide (?c ≠ crc)] => assert (c = crc) as -> end.
    { unfold crc, packetChecksum, covered.
      rewrite (Z.mod_small (Z.of_nat (7 + length payload))) by lia.
      f_equal; by rewrite <- !app_assoc. }
    destruct (decide (crc ≠ crc)) as [Hne|_]; [by destruct Hne | reflexivity]. }
  assert (unpackResponse bytes (Z.of_nat (7 + length payload))
          = {| rsp_command := command; rsp_data := payload; rsp_crc := crc |}) as Hr.
  { rewrite Hbytes, unpackResponse_packet by done.
    f_equal. by apply short_bytes. }
  split; [rewrite Hbytes; apply extractHeader_magic|].
  split; [rewrite Hbytes, !length_app, !codes_length, Hcmd; simpl; lia|].
  split; [reflexivity|].
  split; [rewrite Hbytes'; by rewrite last_app|].
  unfold extractPacketIntoMessages.
  rewrite Hbytes at 1. rewrite extractHeader_magic. cbn [hdr_size].
  rewrite Hr. cbn [rsp_command rsp_crc]. rewrite Hverify.
  by destruct (decide (command ≠ COMMAND.GLUCOSE_RESULT)).
Qed.

(** X7. A reply that the meter frames like a command, delivered in
    non-empty fragments with one report ending after the sixth byte,
    comes out of [commandResponse] as the message with the same command
    and payload, unless its command is one of the five error tokens:
    then [commandResponse] fails with the name of that error. *)
Theorem framed_reply_reaches_the_caller
    (command : string) (payload : list Z) (fragments : list (list Z)) :
  String.length command = 4%nat →
  Forall is_byte payload →
  (7 + length payload ≤ 255)%nat →
  concat fragments = drop 1 (buildPacket calcCRC_A command payload) →
  Forall (λ f, f ≠ []) fragments →
  (∃ k, length (concat (take k fragments)) = 6%nat) →
  commandResponseOn calcCRC_A (reportOf <$> fragments)
  = if decide (getName ERROR command ≠ "unknown")
    then Raised (getName ERROR command)
    else Returned (Some {| rsp_command := command; rsp_data := payload;
                           rsp_crc := packetChecksum command payload |}).
Proof.
  intros Hcmd Hpay Hlen Hcat Hne Hboundary.
  destruct (built_packet_decodes command payload Hcmd Hpay Hlen)
    as (Hh & Hl & Hfirst & Hlast & Hdecode).
  unfold commandResponseOn.
  rewrite (reassembly_with_boundary_after_header _ _ Hh Hl Hfirst Hlast
             fragments Hcat Hne Hboundary).
  cbn [raw]. unfold checkMessage.
  destruct (decide (0 < length _)%nat) as [_|Hn]; [|lia].
  rewrite Hdecode. cbn [rsp_command].
  by destruct (decide _).
Qed.

End ExchangeFacts.

(** ** The handshake with a counter left over *)

Lemma ping_gives_up r tr :
  (4 ≤ r)%nat →
  ping {| hidDevice := {| incoming := []; trace := tr |}; retries := r |}
  = (Throw "Device not responding.",
     {| hidDevice := {| incoming := []; trace := tr ++ unanswered |};
        retries := r |}).
Proof.
  intros Hr. rewrite ping_body. cbn.
  destruct (decide (r ≤ 3)%nat) as [?|_]; [lia|].
  by rewrite <- app_assoc.
Qed.

(** X8. Only an answer resets the retry counter, a failure does not.
    With the counter at [r] and a transport that never answers, [ping]
    sends 5 - r probes (one when the counter has reached 4) and leaves
    the counter at 4 or above; so a [ping] that follows a [ping] that
    gave up sends a single probe before it gives up in turn. An answer
    that comes while retries are left makes [ping] succeed and sets the
    counter to zero, whatever it was. *)
Theorem ping_keeps_its_counter_after_a_failure (r : nat) (tr : list hidEvent) :
  ping {| hidDevice := {| incoming := []; trace := tr |}; retries := r |}
  = (Throw "Device not responding.",
     {| hidDevice := {| incoming := [];
                        trace := tr ++ concat (replicate (S (4 - r)) unanswered) |};
        retries := Nat.max r 4 |})
  ∧ ping (ping (newCareSens {| incoming := []; trace := tr |})).2
    = (Throw "Device not responding.",
       {| hidDevice := {| incoming := [];
                          trace := tr ++ concat (replicate 6 unanswered) |};
          retries := 4 |})
  ∧ ∀ k answer rest,
      (r + k ≤ 4)%nat → answer ≠ [] →
      ping {| hidDevice := {| incoming := replicate k [] ++ answer :: rest;
                              trace := tr |};
              retries := r |}
      = (Ok tt,
         {| hidDevice := {| incoming := rest;
                            trace := tr ++ concat (replicate k unanswered)
                                        ++ [Sent pingProbe; Received answer] |};
            retries := 0 |}).
Proof.
  split; [|split; [|intros k answer rest Hk Hans; by apply ping_answered]].
  - destruct (decide (r ≤ 4)%nat) as [Hle|Hgt].
    + rewrite (ping_unanswered (4 - r) r tr) by lia.
      by rewrite Nat.max_r by lia.
    + rewrite ping_gives_up by lia.
      replace (4 - r)%nat with 0%nat by lia. cbn [replicate concat].
      by rewrite app_nil_r, Nat.max_l by lia.
  - unfold newCareSens. rewrite (ping_unanswered 4 0 tr) by lia. cbn [snd].
    rewrite ping_gives_up by lia. by rewrite <- app_assoc.
Qed.

(** ** Fetching: errors, requests and the record layout *)

Section FetchErrors.

Variable Meter : Type.
Variable commandResponse : string → list Z → Meter → result response * Meter.

Lemma fetchPages_app ps1 : ∀ ps2 m records,
  fetchPages Meter commandResponse (ps1 ++ ps2) m records
  = match fetchPages Meter commandResponse ps1 m records with
    | (Ok records1, m1) => fetchPages Meter commandResponse ps2 m1 records1
    | (Throw msg, m1) => (Throw msg, m1)
    end.
Proof.
  induction ps1 as [|[start count] ps1 IH]; intros ps2 m records; [reflexivity|].
  cbn [app fetchPages].
  destruct (commandResponse _ _ _) as [[result|msg] m1]; [apply IH | reflexivity].
Qed.

(** X9. [getRecords] stops at the first request the meter refuses: the
    error of that exchange is the result, the records of the pages
    fetched before are dropped, and no further request is issued. With
    no record to fetch it issues no request at all. *)
Theorem getRecords_stops_at_the_first_error
    (n : Z) (m : Meter) (ps1 ps2 : list (Z * Z)) (start count : Z)
    (records : list rawRecord) (m1 m2 : Meter) (msg : string) :
  0 ≤ n →
  pages n = ps1 ++ (start, count) :: ps2 →
  fetchPages Meter commandResponse ps1 m [] = (Ok records, m1) →
  commandResponse COMMAND.GLUCOSE_RESULT (pageRequest start count) m1
  = (Throw msg, m2) →
  getRecords Meter commandResponse n m = (Throw msg, m2)
  ∧ getRecords Meter commandResponse 0 m = (Ok [], m).
Proof.
  intros Hn Hpages Hbefore Hrefused. split.
  - rewrite getRecords_pages, Hpages, fetchPages_app, Hbefore by done.
    cbn [fetchPages]. by rewrite Hrefused.
  - unfold getRecords. rewrite getRecordsFrom_body.
    destruct (decide (1 ≤ 0)); [lia | reflexivity].
Qed.

End FetchErrors.

(** X10. The request of every page of a fetch of up to 65535 records
    (the range of the two-byte record count) is three bytes that carry
    the start index, high byte first, and the count without loss. *)
Theorem page_requests_are_lossless (n start count : Z) :
  0 ≤ n < 65536 →
  (start, count) ∈ pages n →
  pageRequest start count = [start / 256; start mod 256; count]
  ∧ extractBEShort (pageRequest start count) 0 = start
  ∧ extractByte (pageRequest start count) 2 = count.
Proof.
  intros Hn Hin. apply list_elem_of_lookup in Hin as [k Hk].
  destruct (pages_lookup _ _ _ _ Hk) as (Hstart & Hcount & Hlt).
  rewrite pages_length in Hlt.
  assert (0 ≤ (n + 26) / 27) by (apply Z.div_pos; lia).
  assert (27 * ((n + 26) / 27) ≤ n + 26) by (apply Z.mul_div_le; lia).
  assert (1 ≤ start ≤ n) as Hs by lia.
  assert (1 ≤ count ≤ 27) as Hc by lia.
  rewrite pageRequest_bytes.
  assert (Z.land (Z.shiftr start 8) 255 mod 256 = start / 256) as Ehi.
  { change 255 with (Z.ones 8). rewrite Z.land_ones, Z.shiftr_div_pow2 by lia.
    change (2 ^ 8) with 256. rewrite Z.mod_mod by lia.
    apply Z.mod_small. split; [apply Z.div_pos; lia|].
    apply Z.div_lt_upper_bound; lia. }
  assert (Z.land start 255 mod 256 = start mod 256) as Elo.
  { change 255 with (Z.ones 8). rewrite Z.land_ones by lia.
    change (2 ^ 8) with 256. by rewrite Z.mod_mod by lia. }
  split; [|split].
  - rewrite Ehi, Elo. by rewrite (Z.mod_small count) by lia.
  - unfold extractBEShort, extractByte. cbn [lookup list_lookup default]. unfold id.
    apply short_bytes. lia.
  - unfold extractByte. cbn [lookup list_lookup default]. unfold id.
    apply Z.mod_small. lia.
Qed.

(** X11. Decoding a page inverts the nine-byte layout of the records:
    the data of a response that holds the bytes of [count] records one
    after the other, whatever follows them, decodes to exactly these
    records, in order, the year brought back from two digits. *)
Theorem page_decoding_inverts_the_record_layout
    (rs acc : list rawRecord) (rest : list Z) :
  Forall wireRecord rs →
  unpackRecords (concat (recordBytes <$> rs) ++ rest) 0 (length rs) acc
  = acc ++ rs.
Proof.
  intros Hrs. rewrite unpackRecords_from. f_equal.
  assert (∀ pre,
    (λ i, unpackRecord (pre ++ concat (recordBytes <$> rs) ++ rest)
            (length pre + 9 * i)) <$> seq 0 (length rs) = rs) as Hall.
  { induction Hrs as [|r rs Hr _ IH]; intros pre; [reflexivity|].
    cbn [length seq fmap list_fmap concat].
    rewrite Nat.mul_0_r, Nat.add_0_r, <- (app_assoc (recordBytes r)).
    rewrite unpackRecord_recordBytes by done. f_equal.
    rewrite <- fmap_S_seq, <- list_fmap_compose.
    specialize (IH (pre ++ recordBytes r)).
    rewrite <- IH at 2. apply list_fmap_ext. intros _ i _. cbn.
    rewrite <- (app_assoc pre). f_equal.
    rewrite length_app. cbn [length recordBytes]. lia. }
  exact (Hall []).
Qed.

(** ** Flags, ketone readings and the outcome of the process stage *)

(** X12. [hasFlag] reads one bit of the flags byte: each of the eight
    flags of the driver is set exactly when its own bit is, whatever the
    other bits are. *)
Theorem hasFlag_reads_one_bit (v : Z) :
  hasFlag FLAGS.CONTROL_SOLUTION v = Z.testbit v 0
  ∧ hasFlag FLAGS.POST_MEAL v = Z.testbit v 1
  ∧ hasFlag FLAGS.LO v = Z.testbit v 2
  ∧ hasFlag FLAGS.HI v = Z.testbit v 3
  ∧ hasFlag FLAGS.FASTING v = Z.testbit v 4
  ∧ hasFlag FLAGS.NORMAL v = Z.testbit v 5
  ∧ hasFlag FLAGS.KETONE v = Z.testbit v 6
  ∧ hasFlag FLAGS.LOW_HIGH v = Z.testbit v 7.
Proof.
  repeat split.
  - apply (hasFlag_testbit 0). lia.
  - apply (hasFlag_testbit 1). lia.
  - apply (hasFlag_testbit 2). lia.
  - apply (hasFlag_testbit 3). lia.
  - apply (hasFlag_testbit 4). lia.
  - apply (hasFlag_testbit 5). lia.
  - apply (hasFlag_testbit 6). lia.
  - apply (hasFlag_testbit 7). lia.
Qed.

Lemma controlCount_all raws :
  controlCount raws = length raws ↔ Forall (λ r, isControl r = true) raws.
Proof.
  unfold controlCount. induction raws as [|r raws IH]; [by split|].
  rewrite filter_cons. cbn [length].
  pose proof (length_filter (λ r, Is_true (isControl r)) raws) as Hle.
  destruct (decide (Is_true (isControl r))) as [Hc|Hc].
  - cbn [length]. rewrite Forall_cons. apply Is_true_true in Hc. split.
    + intros H. split; [done|]. apply IH. lia.
    + intros [_ H]. apply IH in H. lia.
  - split; [lia|]. intros [H _]%Forall_cons. by rewrite H in Hc.
Qed.

Section ProcessOutcome.

Variable formatDeviceTime : timestamp → string.
Variable lookupUTC : timestamp → option jsval → utcInfo.

Lemma processed_length raws :
  (length (processed formatDeviceTime lookupUTC raws) + controlCount raws
   = length raws)%nat.
Proof.
  rewrite processed_parts, length_app, !length_fmap. unfold controlCount.
  generalize 0%nat. induction raws as [|r raws IH]; intros i; [reflexivity|].
  cbn [indexFrom length]. rewrite !filter_cons.
  specialize (IH (S i)).
  unfold isGlucose, isKetone, isControl in *. cbn [snd].
  destruct (hasFlag FLAGS.CONTROL_SOLUTION (flags r)),
           (hasFlag FLAGS.KETONE (flags r));
    repeat (destruct (decide _) as [?|?]; simpl in *; try tauto); lia.
Qed.

(** X13. The process stage fails with "Device has no records to upload"
    exactly when every raw record is a control-solution test (no record
    at all included); otherwise it succeeds, keeps the raw records, and
    hands over one upload record for each record that is not a
    control-solution test. What the record held as upload set before
    plays no part: running the stage again gives the same set. *)
Theorem processData_fails_only_without_readings (data : sessionData) :
  (Forall (λ r, isControl r = true) (records data) →
     processData formatDeviceTime lookupUTC data
     = Throw "Device has no records to upload")
  ∧ (¬ Forall (λ r, isControl r = true) (records data) →
     ∃ data1,
       processData formatDeviceTime lookupUTC data = Ok data1
       ∧ records data1 = records data
       ∧ (length (post_records data1) + controlCount (records data)
          = length (records data))%nat
       ∧ processData formatDeviceTime lookupUTC data1 = Ok data1).
Proof.
  pose proof (processed_length (records data)) as Hlen.
  rewrite processData_processed. split; intros Hall.
  - apply controlCount_all in Hall.
    destruct (decide _) as [_|Hn]; [reflexivity | lia].
  - destruct (decide _) as [Hzero|Hn].
    + destruct Hall. apply controlCount_all. lia.
    + eexists. split; [reflexivity|]. cbn [records post_records].
      split; [reflexivity|]. split; [exact Hlen|].
      rewrite processData_processed. cbn [records].
      by destruct (decide _).
Qed.

(** X14. For a ketone reading that is not a control-solution test the
    upload record is a blood ketone record in mmol/L: with the HI flag
    set its value is 8.1 and it is annotated out of range, high,
    threshold 8; otherwise its value is the raw value divided by 10 and
    it has no annotation, whether the LO flag is set or not. *)
Theorem ketone_out_of_range_substitution (record : rawRecord) (index : nat)
    (post : list (gmap string jsval)) :
  isKetone record = true →
  ∃ postRecord,
    ketoneBody formatDeviceTime lookupUTC record index post = post ++ [postRecord]
    ∧ postRecord !! "type" = Some (VStr "bloodKetone")
    ∧ postRecord !! "units" = Some (VStr "mmol/L")
    ∧ (hasFlag FLAGS.HI (flags record) = true →
       postRecord !! "value" = Some (VNum (QArith_base.Qmake 81 10))
       ∧ postRecord !! "annotations"
         = Some (VAnnotations [ {| ann_code := "ketone/out-of-range";
                                   ann_value := "high";
                                   ann_threshold := QArith_base.Qmake 8 1 |} ]))
    ∧ (hasFlag FLAGS.HI (flags record) = false →
       postRecord !! "value" = Some (VNum (QArith_base.Qmake (value record) 10))
       ∧ postRecord !! "annotations" = None).
Proof.
  intros Hk. unfold isKetone in Hk.
  apply andb_true_iff in Hk as [Hket Hctl]. apply negb_true_iff in Hctl.
  exists (ketoneRecord formatDeviceTime lookupUTC (index, record)). split.
  - unfold ketoneBody. by rewrite Hket, Hctl.
  - destruct (ketoneRecord_fields formatDeviceTime lookupUTC record index)
      as (Ht & Hv & Hu & Ha & _).
    split; [exact Ht|]. split; [exact Hu|].
    rewrite Hv, Ha. unfold ketoneValue.
    split; intros ->; cbn [fst snd fmap option_fmap option_map]; [done|].
    split; [|reflexivity]. do 2 f_equal.
    unfold QArith_base.Qdiv, QArith_base.Qmult, QArith_base.Qinv, KETONE_VALUE_FACTOR.
    cbn [QArith_base.Qnum QArith_base.Qden]. by rewrite Z.mul_1_r.
Qed.

End ProcessOutcome.

(** ** Serial number, device clock and cleanup *)

(** A text that neither starts nor ends with white space. *)
Definition tight (l : list Ascii.ascii) : Prop :=
  (∀ a, head l = Some a → isWhiteSpace a = false)
  ∧ (∀ a, last l = Some a → isWhiteSpace a = false).

Lemma trimStart_spaces pad l :
  Forall (λ a, isWhiteSpace a = true) pad → trimStart (pad ++ l) = trimStart l.
Proof.
  induction 1 as [|a pad Ha _ IH]; [reflexivity|].
  cbn [app trimStart]. by rewrite Ha.
Qed.

Lemma trimStart_kept l :
  (∀ a, head l = Some a → isWhiteSpace a = false) → trimStart l = l.
Proof.
  destruct l as [|a l]; [reflexivity|]. intros H. cbn [trimStart].
  by rewrite (H a eq_refl).
Qed.

Lemma trim_padded pad1 s pad2 :
  Forall (λ a, isWhiteSpace a = true) pad1 →
  Forall (λ a, isWhiteSpace a = true) pad2 →
  tight s →
  trim (String.string_of_list_ascii (pad1 ++ s ++ pad2))
  = String.string_of_list_ascii s.
Proof.
  intros H1 H2 [Hhead Hlast]. unfold trim.
  rewrite String.list_ascii_of_string_of_list_ascii. f_equal.
  rewrite trimStart_spaces by done.
  destruct s as [|a s].
  - cbn [app]. rewrite <- (app_nil_r pad2), trimStart_spaces by done. reflexivity.
  - rewrite (trimStart_kept ((a :: s) ++ pad2))
      by (intros b Hb; cbn in Hb; assert (b = a) as -> by congruence;
          exact (Hhead a eq_refl)).
    rewrite reverse_app, trimStart_spaces by (by apply Forall_reverse).
    rewrite trimStart_kept; [apply reverse_involutive|].
    intros b Hb. rewrite head_reverse in Hb. by apply Hlast.
Qed.

Lemma fromCharCodes_code l :
  fromCharCodes (code <$> l) = String.string_of_list_ascii l.
Proof.
  unfold fromCharCodes. f_equal. rewrite <- list_fmap_compose.
  rewrite <- (list_fmap_id l) at 2. apply list_fmap_ext. intros _ a _.
  unfold code. simpl. rewrite N2Z.id. apply Ascii.ascii_N_embedding.
Qed.

Lemma dropRight_snoc {A : Type} (l : list A) (x : A) : dropRight (l ++ [x]) = l.
Proof.
  unfold dropRight. rewrite length_app. cbn [length].
  replace (length l + 1 - 1)%nat with (length l) by lia.
  apply take_app_length.
Qed.

Section ClockFacts.

Variable Meter : Type.
Variable commandResponse : string → list Z → Meter → result response * Meter.

(** X15. The serial number is the text of the response without its last
    byte and without the white space around it: when the data are some
    white space, a text that neither starts nor ends with white space,
    some more white space and one final byte, the serial number is
    exactly that text. *)
Theorem serial_number_is_the_trimmed_text
    (m m1 : Meter) (r : response) (pad1 s pad2 : list Ascii.ascii) (final : Z) :
  commandResponse COMMAND.READ_SERIAL [] m = (Ok r, m1) →
  rsp_data r = (code <$> (pad1 ++ s ++ pad2)) ++ [final] →
  Forall (λ a, isWhiteSpace a = true) pad1 →
  Forall (λ a, isWhiteSpace a = true) pad2 →
  tight s →
  getSerialNumber Meter commandResponse m = (Ok (String.string_of_list_ascii s), m1).
Proof.
  intros Hr Hdata H1 H2 Hs. unfold getSerialNumber. rewrite Hr, Hdata.
  by rewrite dropRight_snoc, fromCharCodes_code, trim_padded.
Qed.

Lemma setDateTime_payload t :
  (pack (replicate 6 0) 0 (Pb <$> dateTimeValues t)).1
  = (λ b, b mod 256) <$> dateTimeValues t.
Proof. reflexivity. Qed.

Lemma bytes_mod_fixed l : (λ b, b mod 256) <$> l = l ↔ Forall is_byte l.
Proof.
  split; [|apply bytes_mod_id].
  induction l as [|b l IH]; [constructor|].
  rewrite fmap_cons. intros [= Hb Hl]. constructor; [|by apply IH].
  unfold is_byte. rewrite <- Hb. apply Z.mod_pos_bound. lia.
Qed.

(** X16. [setDateTime] sends its six values as six bytes and accepts
    only a response that carries the six values themselves. On a meter
    that echoes the bytes it receives it succeeds exactly when each of
    the six values fits a byte, and fails with "Error setting
    date/time." otherwise; and the clock that [getDateTime] reads from
    a response carrying these six values is the time that was set, the
    year brought back from two digits. *)
Theorem setDateTime_needs_the_exact_echo (t : dateTime) (m : Meter) :
  (∀ payload m0, ∃ r m1,
     commandResponse COMMAND.WRITE_TIME payload m0 = (Ok r, m1)
     ∧ rsp_data r = payload) →
  (Forall is_byte (dateTimeValues t) →
     ∃ m1, setDateTime Meter commandResponse t m = (Ok tt, m1))
  ∧ (¬ Forall is_byte (dateTimeValues t) →
     ∃ m1, setDateTime Meter commandResponse t m
           = (Throw "Error setting date/time.", m1))
  ∧ (∀ r m1,
       commandResponse COMMAND.READ_TIME [] m = (Ok r, m1) →
       rsp_data r = dateTimeValues t →
       getDateTime Meter commandResponse m
       = (Ok {| ts_year := dt_year t + 2000; ts_month := dt_month t;
                ts_day := dt_day t; ts_hours := dt_hours t;
                ts_minutes := dt_minutes t; ts_seconds := dt_seconds t |}, m1)).
Proof.
  intros Hecho.
  destruct (Hecho ((λ b, b mod 256) <$> dateTimeValues t) m) as (r & m1 & Hr & Hdata).
  split; [|split].
  - intros Hbytes. exists m1. unfold setDateTime.
    rewrite setDateTime_payload, Hr, Hdata.
    destruct (decide _) as [Hne|_]; [|reflexivity].
    destruct Hne. symmetry. by apply bytes_mod_fixed.
  - intros Hbytes. exists m1. unfold setDateTime.
    rewrite setDateTime_payload, Hr, Hdata.
    destruct (decide _) as [_|Heq]; [reflexivity|].
    destruct Hbytes. apply bytes_mod_fixed. apply dec_stable in Heq. by symmetry.
  - intros r' m1' Hr' Hdata'. unfold getDateTime. rewrite Hr', Hdata'. reflexivity.
Qed.

End ClockFacts.

(** X17. [cleanup] releases the transport at most once. Unless the
    record says the transport is released already, it calls the
    transport's disconnect once, marks the record as disconnected and
    cleaned up and hands it on; this also when connect has not set the
    flag at all. Called again on that record it does not call
    disconnect and hands on nothing. *)
Theorem cleanup_releases_the_transport_once (data : stageFlags) (n : nat) :
  (flag_disconnect data ≠ Some true →
     ∃ data1,
       cleanup data n = (Some data1, S n)
       ∧ flag_disconnect data1 = Some true
       ∧ flag_cleanup data1 = Some true
       ∧ cleanup data1 (S n) = (None, S n))
  ∧ (flag_disconnect data = Some true → cleanup data n = (None, n)).
Proof.
  unfold cleanup. split.
  - intros Hne. destruct (flag_disconnect data) as [[|]|]; [done| |];
      cbn; eexists; repeat split.
  - intros ->. reflexivity.
Qed.

(** * Instances

    The statements above at concrete inputs. *)

(** A checksum of the class the protocol uses (16 bits, polynomial
    0x1021, start value 0xFFFF), standing in for [calcCRC_A]. *)
Definition crcBit (crc : Z) : Z :=
  if Z.testbit crc 15
  then Z.lxor (Z.shiftl crc 1) 0x1021
  else Z.shiftl crc 1.

Definition crcByte (crc b : Z) : Z :=
  Z.land (Nat.iter 8 crcBit (Z.lxor crc (Z.shiftl b 8))) 0xFFFF.

Definition crc16 (bytes : list Z) (size : nat) : Z :=
  foldl crcByte 0xFFFF (take size bytes).

Lemma crc16_range bytes size : 0 ≤ crc16 bytes size < 65536.
Proof.
  unfold crc16. generalize (take size bytes). intros l.
  induction l as [|b l IH] using rev_ind; [simpl; lia|].
  rewrite foldl_app. cbn [foldl]. unfold crcByte.
  change 0xFFFF with (Z.ones 16). rewrite Z.land_ones by lia.
  apply Z.mod_pos_bound. lia.
Qed.

Lemma crc16_prefix bytes rest :
  crc16 (bytes ++ rest) (length bytes) = crc16 bytes (length bytes).
Proof. unfold crc16. by rewrite take_app_length, firstn_all. Qed.

(** A glucose-result response with one 9-byte record and a checksum
    field that matches nothing. *)
Definition glucoseReply : list Z :=
  [ASCII_CONTROL.STX] ++ codes COMMAND.HEADER ++ [16]
  ++ codes COMMAND.GLUCOSE_RESULT ++ [20; 11; 2; 8; 30; 0; 0; 0; 104]
  ++ [0xAB; 0xCD; ASCII_CONTROL.ETX].

Lemma buildPacket_decodes_witness :
  String.length COMMAND.CURRENT_INDEX = 4%nat
  ∧ Forall is_byte [0; 5]
  ∧ (7 + length [0; 5] ≤ 255)%nat
  ∧ ∃ r, extractPacketIntoMessages crc16
           (drop 1 (buildPacket crc16 COMMAND.CURRENT_INDEX [0; 5])) = Ok r
         ∧ rsp_command r = COMMAND.CURRENT_INDEX
         ∧ rsp_data r = [0; 5]
         ∧ verifyChecksum crc16
             (drop 1 (buildPacket crc16 COMMAND.CURRENT_INDEX [0; 5])) (rsp_crc r)
           = Ok tt.
Proof.
  assert (Forall is_byte [0; 5]) as Hbytes by (repeat constructor; unfold is_byte; lia).
  split; [reflexivity|]. split; [exact Hbytes|]. split; [simpl; lia|].
  apply (buildPacket_decodes crc16 crc16_range crc16_prefix COMMAND.CURRENT_INDEX [0; 5]);
    [reflexivity | exact Hbytes | simpl; lia].
Defined.

Lemma glucose_result_exempt_from_checksum_witness :
  extractHeader glucoseReply = Ok {| hdr_header := COMMAND.HEADER; hdr_size := 16 |}
  ∧ 7 ≤ 16
  ∧ Z.of_nat (length glucoseReply) = 16 + 6
  ∧ extractPacketIntoMessages crc16 (withChecksum glucoseReply 0x12 0x34)
    = Ok {| rsp_command := COMMAND.GLUCOSE_RESULT;
            rsp_data := [20; 11; 2; 8; 30; 0; 0; 0; 104];
            rsp_crc := 0x12 * 256 + 0x34 |}.
Proof.
  assert (extractHeader glucoseReply
          = Ok {| hdr_header := COMMAND.HEADER; hdr_size := 16 |}) as Hh by reflexivity.
  split; [exact Hh|]. split; [lia|]. split; [reflexivity|].
  destruct (glucose_result_exempt_from_checksum crc16 glucoseReply
              {| hdr_header := COMMAND.HEADER; hdr_size := 16 |} Hh
              ltac:(simpl; lia) eq_refl) as [Hglucose _].
  destruct (Hglucose eq_refl) as [_ Hany].
  apply (Hany 0x12 0x34); unfold is_byte; lia.
Defined.

Lemma read_loop_has_no_timeout_exit_witness :
  (∀ st, readReports [[]; [3; 7; 8; 9]; []] initialRead ≠ Complete st)
  ∧ readReports [[]; [3; 7; 8; 9]; []] initialRead ≠ Failed "Communication timeout".
Proof.
  assert (∀ st, readReports [[]; [3; 7; 8; 9]; []] initialRead ≠ Complete st) as Hnever
    by (intros st; vm_compute; discriminate).
  split; [exact Hnever|].
  apply (read_loop_has_no_timeout_exit [[]; [3; 7; 8; 9]; []] Hnever).
Defined.

Lemma ping_retries_four_times_witness :
  (2 ≤ 4)%nat
  ∧ [1; 0] ≠ ([] : list Z)
  ∧ ping (newCareSens {| incoming := replicate 2 [] ++ [1; 0] :: []; trace := [] |})
    = (Ok tt,
       {| hidDevice := {| incoming := [];
                          trace := [] ++ concat (replicate 2 unanswered)
                                      ++ [Sent pingProbe; Received [1; 0]] |};
          retries := 0 |}).
Proof.
  split; [lia|]. split; [discriminate|].
  destruct (ping_retries_four_times []) as (_ & _ & Hanswered).
  apply (Hanswered 2%nat [1; 0] []); [lia | discriminate].
Defined.

(** Thirty readings, one a minute, told apart by their values. *)
Definition stored30 : list rawRecord :=
  (λ i, let k := Z.of_nat i in
        {| year := 2020; month := 11; day := 2;
           hours := 8; minutes := k; seconds := 0;
           flags := 0; value := 300 + k;
           jsDate := {| ts_year := 2020; ts_month := 11; ts_day := 2;
                        ts_hours := 8; ts_minutes := k; ts_seconds := 0 |} |})
    <$> seq 0 30.

(** A meter that holds the records [stored] and counts the requests. It
    answers the index query with their number in two bytes, high byte
    first, and a glucose-result request with the nine bytes of each
    record asked for: [count] records from the 1-based index [start] on,
    both taken from the three bytes of the request. *)
Definition storing (stored : list rawRecord)
    (command : string) (payload : list Z) (m : nat) : result response * nat :=
  let held := Z.of_nat (length stored) in
  let start := Z.to_nat (256 * nth 0 payload 0 + nth 1 payload 0) in
  let count := Z.to_nat (nth 2 payload 0) in
  (Ok {| rsp_command := command;
         rsp_data :=
           if decide (command = COMMAND.CURRENT_INDEX)
           then [held / 256; held mod 256]
           else concat (recordBytes <$> take count (drop (start - 1) stored));
         rsp_crc := 0 |}, S m).

Lemma stored30_wire : Forall wireRecord stored30.
Proof.
  apply Forall_fmap, Forall_forall. intros i Hi%elem_of_seq.
  unfold wireRecord, is_byte. cbn. repeat split; lia.
Qed.

Lemma storing_answers stored start count m0 :
  1 ≤ start →
  ∃ result m1 rest,
    storing stored COMMAND.GLUCOSE_RESULT [start / 256; start mod 256; count] m0
    = (Ok result, m1)
    ∧ rsp_data result
      = concat (recordBytes <$>
                  take (Z.to_nat count) (drop (Z.to_nat (start - 1)) stored))
        ++ rest.
Proof.
  intros Hstart. eexists _, _, []. split; [reflexivity|].
  cbn [rsp_data nth]. destruct (decide _) as [E|_]; [discriminate E|].
  rewrite app_nil_r, <- (Z.div_mod start 256) by lia.
  by replace (Z.to_nat start - 1)%nat with (Z.to_nat (start - 1)) by lia.
Qed.

Lemma getRecords_fetches_every_record_witness :
  0 ≤ 30
  ∧ (∀ payload m0, ∃ result m1,
       storing stored30 COMMAND.GLUCOSE_RESULT payload m0 = (Ok result, m1))
  ∧ pages 30 = [(1, 27); (28, 3)]
  ∧ pageRequest 28 3 = [0; 28; 3]
  ∧ getRecords nat (storing stored30) 30 0%nat = (Ok stored30, 2%nat)
  ∧ ∃ m1, getRecords nat (storing stored30) 30 0%nat = (Ok stored30, m1).
Proof.
  assert (∀ payload m0, ∃ result m1,
            storing stored30 COMMAND.GLUCOSE_RESULT payload m0 = (Ok result, m1))
    as Hans by (intros payload m0; eexists _, _; reflexivity).
  destruct (getRecords_fetches_every_record nat (storing stored30) 30 0%nat
              ltac:(lia) Hans) as (Hpages & _ & _ & Hrequest & _ & _ & Hstored & _).
  split; [lia|]. split; [exact Hans|]. split; [reflexivity|].
  split; [|split].
  - apply (Hrequest 28 3); [|lia].
    apply list_elem_of_lookup. by exists 1%nat.
  - rewrite Hpages. vm_compute. reflexivity.
  - apply (Hstored stored30); [lia | reflexivity | exact stored30_wire |].
    intros start count m0 Hstart _ _. by apply storing_answers.
Defined.

(** A glucose reading with both the HI and the LO flag set. *)
Definition highAndLow : rawRecord :=
  {| year := 2020; month := 11; day := 2; hours := 8; minutes := 30; seconds := 0;
     flags := 0x0C; value := 104;
     jsDate := {| ts_year := 2020; ts_month := 11; ts_day := 2;
                  ts_hours := 8; ts_minutes := 30; ts_seconds := 0 |} |}.

Definition noUTC : timestamp → option jsval → utcInfo :=
  λ _ _, {| utc_time := "2020-11-02T08:30:00.000Z"; utc_timezoneOffset := 0;
            utc_clockDriftOffset := 0; utc_conversionOffset := 0 |}.

Lemma glucose_out_of_range_substitution_witness :
  isGlucose highAndLow = true
  ∧ hasFlag FLAGS.HI (flags highAndLow) = true
  ∧ hasFlag FLAGS.LO (flags highAndLow) = true
  ∧ ∃ postRecord,
      bgBody (λ _, "2020-11-02T08:30:00") noUTC highAndLow 0 [] = [] ++ [postRecord]
      ∧ postRecord !! "value" = Some (number 601).
Proof.
  split; [reflexivity|]. split; [reflexivity|]. split; [reflexivity|].
  destruct (glucose_out_of_range_substitution (λ _, "2020-11-02T08:30:00") noUTC
              highAndLow 0 [] eq_refl) as (postRecord & Hpush & Hhigh & _).
  exists postRecord. split; [exact Hpush|]. apply (Hhigh eq_refl).
Defined.

(** ** Instances of the further properties *)

Lemma report_is_read_up_to_its_declared_length_witness :
  0 ≤ 3
  ∧ readReport initialRead [3; 2; 105; 83; 0; 0; 3; 0]
    = readReport initialRead (reportOf (take (Z.to_nat 3) [2; 105; 83; 0; 0; 3; 0])).
Proof.
  split; [lia|].
  apply (report_is_read_up_to_its_declared_length initialRead 3 [2; 105; 83; 0; 0; 3; 0]).
  lia.
Defined.

(** The reply with which the meter reports a timeout of its own, in two
    reports cut after the header. *)
Definition timeoutReply : list (list Z) :=
  [reportOf (take 6 (drop 1 (buildPacket crc16 "TOUT" [])));
   reportOf (drop 7 (buildPacket crc16 "TOUT" []))].

Lemma commandResponse_error_taxonomy_witness :
  commandResponseOn crc16 timeoutReply = Raised "Communication timeout"
  ∧ ("Communication timeout" = "Header not found"
     ∨ "Communication timeout" = "Checksum mismatch"
     ∨ ∃ st r, readReports timeoutReply initialRead = Complete st
               ∧ extractPacketIntoMessages crc16 (raw st) = Ok r
               ∧ (rsp_command r, "Communication timeout") ∈ ERROR).
Proof.
  assert (commandResponseOn crc16 timeoutReply = Raised "Communication timeout") as H
    by (vm_compute; reflexivity).
  split; [exact H|].
  apply (commandResponse_error_taxonomy crc16 timeoutReply "Communication timeout" H).
Defined.

Lemma fragmented_packet_is_reassembled_at_its_last_report_witness :
  extractHeader (indexReply 1 2) = Ok {| hdr_header := COMMAND.HEADER; hdr_size := 9 |}
  ∧ Z.of_nat (length (indexReply 1 2)) = 9 + 6
  ∧ concat [take 2 (indexReply 1 2); take 4 (drop 2 (indexReply 1 2));
            drop 6 (indexReply 1 2)] = indexReply 1 2
  ∧ readReports
      (reportOf <$> [take 2 (indexReply 1 2); take 4 (drop 2 (indexReply 1 2));
                     drop 6 (indexReply 1 2)]) initialRead
    = Complete {| raw := indexReply 1 2; foundSTX := true; packetSize := 9 |}.
Proof.
  split; [reflexivity|]. split; [reflexivity|]. split; [reflexivity|].
  apply (fragmented_packet_is_reassembled_at_its_last_report (indexReply 1 2)
           {| hdr_header := COMMAND.HEADER; hdr_size := 9 |}
           [take 2 (indexReply 1 2); take 4 (drop 2 (indexReply 1 2));
            drop 6 (indexReply 1 2)]);
    [reflexivity | reflexivity | reflexivity | reflexivity | reflexivity
    | repeat constructor; discriminate
    | by exists 2%nat ].
Defined.

Lemma buildPacket_wire_layout_witness :
  String.length COMMAND.READ_TIME = 4%nat
  ∧ Forall is_byte ([] : list Z)
  ∧ length (buildPacket crc16 COMMAND.READ_TIME []) = (14 + 0)%nat.
Proof.
  split; [reflexivity|]. split; [constructor|].
  apply (buildPacket_wire_layout crc16 crc16_prefix COMMAND.READ_TIME []);
    [reflexivity | constructor].
Defined.

(** The reply to the index query in three reports, the header split in
    two. *)
Definition indexAnswer : list (list Z) :=
  [take 3 (drop 1 (buildPacket crc16 COMMAND.CURRENT_INDEX [0; 5]));
   take 3 (drop 4 (buildPacket crc16 COMMAND.CURRENT_INDEX [0; 5]));
   drop 7 (buildPacket crc16 COMMAND.CURRENT_INDEX [0; 5])].

Lemma framed_reply_reaches_the_caller_witness :
  String.length COMMAND.CURRENT_INDEX = 4%nat
  ∧ (7 + length [0; 5] ≤ 255)%nat
  ∧ concat indexAnswer = drop 1 (buildPacket crc16 COMMAND.CURRENT_INDEX [0; 5])
  ∧ commandResponseOn crc16 (reportOf <$> indexAnswer)
    = Returned (Some {| rsp_command := COMMAND.CURRENT_INDEX; rsp_data := [0; 5];
                        rsp_crc := packetChecksum crc16 COMMAND.CURRENT_INDEX [0; 5] |}).
Proof.
  assert (concat indexAnswer = drop 1 (buildPacket crc16 COMMAND.CURRENT_INDEX [0; 5]))
    as Hcat by (vm_compute; reflexivity).
  split; [reflexivity|]. split; [simpl; lia|]. split; [exact Hcat|].
  rewrite (framed_reply_reaches_the_caller crc16 crc16_range crc16_prefix
             COMMAND.CURRENT_INDEX [0; 5] indexAnswer);
    [reflexivity | reflexivity | repeat constructor; unfold is_byte; lia
    | simpl; lia | exact Hcat
    | repeat constructor; vm_compute; discriminate
    | exists 2%nat; vm_compute; reflexivity ].
Defined.

(** A meter that answers its first request and refuses the second. *)
Definition refusingSecond (command : string) (payload : list Z) (m : nat)
  : result response * nat :=
  if (m <? 1)%nat
  then (Ok {| rsp_command := command; rsp_data := replicate 243 0; rsp_crc := 0 |}, S m)
  else (Throw "Could not verify packet command", S m).

Lemma getRecords_stops_at_the_first_error_witness :
  0 ≤ 30
  ∧ pages 30 = [(1, 27)] ++ (28, 3) :: []
  ∧ refusingSecond COMMAND.GLUCOSE_RESULT (pageRequest 28 3) 1%nat
    = (Throw "Could not verify packet command", 2%nat)
  ∧ getRecords nat refusingSecond 30 0%nat
    = (Throw "Could not verify packet command", 2%nat).
Proof.
  split; [lia|]. split; [reflexivity|]. split; [reflexivity|].
  apply (getRecords_stops_at_the_first_error nat refusingSecond 30 0%nat
           [(1, 27)] [] 28 3
           (pageRecords (replicate 243 0) 27) 1%nat 2%nat
           "Could not verify packet command");
    [lia | reflexivity | reflexivity | reflexivity].
Defined.

Lemma page_requests_are_lossless_witness :
  0 ≤ 300 < 65536
  ∧ (271, 27) ∈ pages 300
  ∧ pageRequest 271 27 = [271 / 256; 271 mod 256; 27].
Proof.
  assert ((271, 27) ∈ pages 300) as Hin by (vm_compute; set_solver).
  split; [lia|]. split; [exact Hin|].
  apply (page_requests_are_lossless 300 271 27); [lia | exact Hin].
Defined.

Lemma page_decoding_inverts_the_record_layout_witness :
  Forall wireRecord [highAndLow]
  ∧ unpackRecords (concat (recordBytes <$> [highAndLow]) ++ [0; 0]) 0 1 []
    = [] ++ [highAndLow].
Proof.
  assert (Forall wireRecord [highAndLow]) as H
    by (repeat constructor; unfold is_byte; simpl; lia).
  split; [exact H|].
  apply (page_decoding_inverts_the_record_layout [highAndLow] [] [0; 0] H).
Defined.

Lemma fetchData_answered_witness :
  storing stored30 COMMAND.CURRENT_INDEX [] 0%nat
  = (Ok {| rsp_command := COMMAND.CURRENT_INDEX; rsp_data := [0; 30];
           rsp_crc := 0 |}, 1%nat)
  ∧ is_byte 0 ∧ is_byte 30
  ∧ (∀ payload m', ∃ result m1,
       storing stored30 COMMAND.GLUCOSE_RESULT payload m' = (Ok result, m1))
  ∧ ∃ records m1,
      fetchData nat (storing stored30) 0%nat = (Ok (256 * 0 + 30, records), m1)
      ∧ getRecords nat (storing stored30) (256 * 0 + 30) 1%nat = (Ok records, m1)
      ∧ length records = Z.to_nat (256 * 0 + 30).
Proof.
  assert (∀ payload m', ∃ result m1,
            storing stored30 COMMAND.GLUCOSE_RESULT payload m' = (Ok result, m1))
    as Hans by (intros payload m'; eexists _, _; reflexivity).
  assert (is_byte 0) as Hhi by (unfold is_byte; lia).
  assert (is_byte 30) as Hlo by (unfold is_byte; lia).
  split; [reflexivity|]. split; [exact Hhi|]. split; [exact Hlo|].
  split; [exact Hans|].
  apply (fetchData_answered nat (storing stored30) 0%nat
           {| rsp_command := COMMAND.CURRENT_INDEX; rsp_data := [0; 30];
              rsp_crc := 0 |} 1%nat 0 30 [] eq_refl eq_refl Hhi Hlo Hans).
Defined.

(** A ketone reading with the HI and the LO flag set. *)
Definition ketoneHigh : rawRecord :=
  {| year := 2020; month := 11; day := 2; hours := 8; minutes := 30; seconds := 0;
     flags := 0x4C; value := 12;
     jsDate := {| ts_year := 2020; ts_month := 11; ts_day := 2;
                  ts_hours := 8; ts_minutes := 30; ts_seconds := 0 |} |}.

Lemma ketone_out_of_range_substitution_witness :
  isKetone ketoneHigh = true
  ∧ ∃ postRecord,
      ketoneBody (λ _, "2020-11-02T08:30:00") noUTC ketoneHigh 0 [] = [] ++ [postRecord]
      ∧ postRecord !! "value" = Some (VNum (QArith_base.Qmake 81 10)).
Proof.
  split; [reflexivity|].
  destruct (ketone_out_of_range_substitution (λ _, "2020-11-02T08:30:00") noUTC
              ketoneHigh 0 [] eq_refl) as (postRecord & Hpush & _ & _ & Hhigh & _).
  exists postRecord. split; [exact Hpush|]. apply (Hhigh eq_refl).
Defined.

(** A meter that answers every command with the serial number AB12,
    padded with spaces and closed by a zero byte, and one that echoes
    the payload it receives. *)
Definition serialText : list Ascii.ascii :=
  String.list_ascii_of_string "AB12".

Definition spaces : list Ascii.ascii := String.list_ascii_of_string "  ".

Definition serialMeter (command : string) (payload : list Z) (m : nat)
  : result response * nat :=
  (Ok {| rsp_command := command;
         rsp_data := (code <$> (spaces ++ serialText ++ spaces)) ++ [0];
         rsp_crc := 0 |}, S m).

Definition echoMeter (command : string) (payload : list Z) (m : nat)
  : result response * nat :=
  (Ok {| rsp_command := command; rsp_data := payload; rsp_crc := 0 |}, S m).

Lemma serial_number_is_the_trimmed_text_witness :
  Forall (λ a, isWhiteSpace a = true) spaces
  ∧ tight serialText
  ∧ getSerialNumber nat serialMeter 0%nat = (Ok "AB12", 1%nat).
Proof.
  assert (Forall (λ a, isWhiteSpace a = true) spaces) as Hs
    by (repeat constructor).
  assert (tight serialText) as Ht
    by (split; intros a [= <-]; reflexivity).
  split; [exact Hs|]. split; [exact Ht|].
  apply (serial_number_is_the_trimmed_text nat serialMeter 0%nat 1%nat
           {| rsp_command := COMMAND.READ_SERIAL;
              rsp_data := (code <$> (spaces ++ serialText ++ spaces)) ++ [0];
              rsp_crc := 0 |}
           spaces serialText spaces 0 eq_refl eq_refl Hs Hs Ht).
Defined.

Lemma setDateTime_needs_the_exact_echo_witness :
  (∀ payload m0, ∃ r m1,
     echoMeter COMMAND.WRITE_TIME payload m0 = (Ok r, m1) ∧ rsp_data r = payload)
  ∧ (∃ m1, setDateTime nat echoMeter
             {| dt_year := 20; dt_month := 11; dt_day := 2;
                dt_hours := 8; dt_minutes := 30; dt_seconds := 0 |} 0%nat
           = (Ok tt, m1))
  ∧ (∃ m1, setDateTime nat echoMeter
             {| dt_year := 2020; dt_month := 11; dt_day := 2;
                dt_hours := 8; dt_minutes := 30; dt_seconds := 0 |} 0%nat
           = (Throw "Error setting date/time.", m1)).
Proof.
  assert (∀ payload m0, ∃ r m1,
            echoMeter COMMAND.WRITE_TIME payload m0 = (Ok r, m1)
            ∧ rsp_data r = payload) as Hecho
    by (intros payload m0; eexists _, _; split; reflexivity).
  split; [exact Hecho|]. split.
  - apply (setDateTime_needs_the_exact_echo nat echoMeter _ 0%nat Hecho).
    repeat constructor; unfold is_byte; simpl; lia.
  - apply (setDateTime_needs_the_exact_echo nat echoMeter _ 0%nat Hecho).
    intros H. apply Forall_cons in H as [H _]. unfold is_byte in H. simpl in H. lia.
Defined.
